(** * octopus_deploy_projects.py: the deployment report pipeline

    A shallow embedding of [get_all_deployments.py/octopus_deploy_projects.py]
    and the properties of its API client, paginator, deployment resolver and
    aggregator.

    Conventions of the embedding.
    - A decoded JSON document is a [json] value; Python's [None] is [JNull].
      JSON numbers are integers (identifiers, counts); floats are not modelled.
      A string is its sequence of bytes, so [len] and iteration agree with
      Python on ASCII text.
    - A Python exception is an [exn]; every one of them is a subclass of
      [Exception], so [except Exception] catches all of them.
    - The remote service is a function [server] from the requested URL to the
      outcome of the HTTP GET (an unchanged backing data set).  A computation
      returns its outcome together with the list of URLs it requested, in
      order.
    - [log_debug] and [log_stdout] only append to the diagnostic file and the
      console; they return nothing and are left out.  The arguments of a log
      call are still evaluated where evaluating them can raise.
    - The [while True] loop of the paginator takes fuel; running out of fuel is
      the outcome [Diverge], which no [except] clause catches. *)

From Stdlib Require Import List String Ascii ZArith Lia Bool DecimalString Permutation.
Import ListNotations.

Local Open Scope string_scope.
Local Open Scope list_scope.
Local Open Scope Z_scope.

(** ** Python values and exceptions *)

#[local] Set Warnings "-register-all".

Inductive json : Type :=
| JNull
| JBool (b : bool)
| JNum (n : Z)
| JStr (s : string)
| JArr (items : list json)
| JObj (fields : list (string * json)).

Inductive exn : Type :=
| KeyError
| TypeError
| AttributeError
| ValueError
| OverflowError
| ConnectionError
| JSONDecodeError.

(** The result of a pure Python expression: a value or a raised exception. *)
Inductive res (A : Type) : Type :=
| Ok (a : A)
| Err (e : exn).
Arguments Ok {A} a.
Arguments Err {A} e.

(** A Python dict with string keys, in insertion order. *)
Definition dict : Type := list (string * json).

Fixpoint assoc (k : string) (d : dict) : option json :=
  match d with
  | [] => None
  | (k', v) :: d' => if String.eqb k k' then Some v else assoc k d'
  end.

(** [d[k] = v]: an existing key keeps its position, a new key goes last. *)
Fixpoint dict_set (d : dict) (k : string) (v : json) : dict :=
  match d with
  | [] => [(k, v)]
  | (k', v') :: d' =>
      if String.eqb k k' then (k', v) :: d' else (k', v') :: dict_set d' k v
  end.

(** Truth value of a Python object ([if x], [not x]). *)
Definition truthy (v : json) : bool :=
  match v with
  | JNull => false
  | JBool b => b
  | JNum n => negb (n =? 0)
  | JStr s => negb (String.eqb s "")
  | JArr l => match l with [] => false | _ :: _ => true end
  | JObj d => match d with [] => false | _ :: _ => true end
  end.

(** [v[k]] for a string key [k]: only a dict holding [k] answers. *)
Definition subscript (v : json) (k : string) : res json :=
  match v with
  | JObj d => match assoc k d with Some x => Ok x | None => Err KeyError end
  | _ => Err TypeError
  end.

(** [v.get(k, default)]: only a dict has the method. *)
Definition dict_get (v : json) (k : string) (default : json) : res json :=
  match v with
  | JObj d => match assoc k d with Some x => Ok x | None => Ok default end
  | _ => Err AttributeError
  end.

(** [len(v)]. *)
Definition py_len (v : json) : res Z :=
  match v with
  | JArr l => Ok (Z.of_nat (List.length l))
  | JObj d => Ok (Z.of_nat (List.length d))
  | JStr s => Ok (Z.of_nat (String.length s))
  | _ => Err TypeError
  end.

(** The elements [for x in v] and [list.extend(v)] go through: the items of a
    list, the keys of a dict, the characters of a string. *)
Definition py_iter (v : json) : res (list json) :=
  match v with
  | JArr l => Ok l
  | JObj d => Ok (map (fun kv => JStr (fst kv)) d)
  | JStr s => Ok (map (fun c => JStr (String c EmptyString)) (list_ascii_of_string s))
  | _ => Err TypeError
  end.

(** [v == s] for a string literal [s]. *)
Definition eq_str (v : json) (s : string) : bool :=
  match v with
  | JStr x => String.eqb x s
  | _ => false
  end.

(** Whether a value can be a dict key (lists and dicts are unhashable). *)
Definition hashable (v : json) : bool :=
  match v with
  | JArr _ | JObj _ => false
  | _ => true
  end.

(** Equality of dict keys: Python's [==] on hashable values, under which
    [True == 1] and [False == 0]. *)
Definition key_eq (a b : json) : bool :=
  match a, b with
  | JNull, JNull => true
  | JStr x, JStr y => String.eqb x y
  | JNum x, JNum y => x =? y
  | JBool x, JBool y => Bool.eqb x y
  | JBool x, JNum y => (if x then 1 else 0) =? y
  | JNum x, JBool y => x =? (if y then 1 else 0)
  | _, _ => false
  end.

Definition decimal (n : Z) : string := NilZero.string_of_int (Z.to_int n).

(** ** Computations: an outcome and the requests made *)

Inductive outcome (A : Type) : Type :=
| Ret (a : A)
| Raise (e : exn)
| Diverge.
Arguments Ret {A} a.
Arguments Raise {A} e.
Arguments Diverge {A}.

Definition M (A : Type) : Type := (outcome A * list string)%type.

Definition ret {A} (a : A) : M A := (Ret a, []).

Definition bind {A B} (m : M A) (k : A -> M B) : M B :=
  match m with
  | (Ret a, t1) => let (o, t2) := k a in (o, t1 ++ t2)
  | (Raise e, t1) => (Raise e, t1)
  | (Diverge, t1) => (Diverge, t1)
  end.

Definition lift {A} (r : res A) : M A :=
  match r with
  | Ok a => ret a
  | Err e => (Raise e, [])
  end.

(** [try: m  except Exception as e: h e]. *)
Definition try_except {A} (m : M A) (h : exn -> M A) : M A :=
  match m with
  | (Raise e, t1) => let (o, t2) := h e in (o, t1 ++ t2)
  | _ => m
  end.

Notation "x <- m ;; k" := (bind m (fun x => k))
  (at level 61, m at next level, right associativity).

Fixpoint mapM {A B} (f : A -> M B) (l : list A) : M (list B) :=
  match l with
  | [] => ret []
  | a :: l' => b <- f a ;; bs <- mapM f l' ;; ret (b :: bs)
  end.

(** ** The remote service *)

Inductive http_outcome : Type :=
| TransportError
  (** [requests.get] raised: no response arrived. *)
| Response (status_code : Z) (body : option json)
  (** A response; [body] is its JSON document, [None] when the text is not
      JSON and [response.json()] raises. *).

Definition OCTOPUS_BASE_URL : string := "https://octopus.example.com".
Definition SPACE_ID : string := "Spaces-1".

(** The URL of an endpoint: [f"{OCTOPUS_BASE_URL}/api/{SPACE_ID}/{endpoint}"]. *)
Definition api_url (endpoint : string) : string :=
  OCTOPUS_BASE_URL ++ "/api/" ++ SPACE_ID ++ "/" ++ endpoint.

(** ** convert_to_pdt

    [datetime.strptime(utc_time, '%Y-%m-%dT%H:%M:%S.%f%z')], then
    [astimezone] to America/Los_Angeles, then
    [strftime('%Y-%m-%d %H:%M:%S PDT')].

    [strptime] turns the format into a regular expression, takes its first
    match at the start of the text and refuses text that is left over.  A
    pattern is modelled as the list of its matches in the order the
    backtracking matcher tries them.  Digits are the ASCII digits. *)

Module Strptime.

Definition text : Type := list ascii.

(** All the ways a pattern matches a prefix: (value, rest), preferred first. *)
Definition pat (A : Type) : Type := text -> list (A * text).

Definition is_digit (c : ascii) : bool :=
  let n := nat_of_ascii c in (48 <=? n)%nat && (n <=? 57)%nat.

Definition digit_val (c : ascii) : Z := Z.of_nat (nat_of_ascii c) - 48.

Definition in_range (lo hi : ascii) (c : ascii) : bool :=
  (nat_of_ascii lo <=? nat_of_ascii c)%nat && (nat_of_ascii c <=? nat_of_ascii hi)%nat.

(** One character satisfying [p]. *)
Definition one (p : ascii -> bool) : pat ascii :=
  fun t => match t with
           | c :: t' => if p c then [(c, t')] else []
           | [] => []
           end.

Definition seq2 {A B C} (f : A -> B -> C) (p : pat A) (q : pat B) : pat C :=
  fun t => flat_map (fun '(a, t1) => map (fun '(b, t2) => (f a b, t2)) (q t1)) (p t).

Definition alt {A} (p q : pat A) : pat A := fun t => p t ++ q t.

Definition pure {A} (a : A) : pat A := fun t => [(a, t)].

(** [p?], greedy. *)
Definition opt {A} (p : pat A) (default : A) : pat A := alt p (pure default).

Definition chr (c : ascii) : ascii -> bool := fun x => Ascii.eqb x c.

(** Two characters [a][b] read as a number. *)
Definition two (pa pb : ascii -> bool) : pat Z :=
  seq2 (fun a b => 10 * digit_val a + digit_val b) (one pa) (one pb).

Definition one_digit (p : ascii -> bool) : pat Z :=
  seq2 (fun a _ => digit_val a) (one p) (pure tt).

(** [\d\d\d\d] *)
Definition pat_Y : pat Z :=
  seq2 (fun a b => 100 * a + b) (two is_digit is_digit) (two is_digit is_digit).

(** [1[0-2]|0[1-9]|[1-9]] *)
Definition pat_m : pat Z :=
  alt (two (chr "1") (in_range "0" "2"))
 (alt (two (chr "0") (in_range "1" "9"))
      (one_digit (in_range "1" "9"))).

(** [3[0-1]|[1-2]\d|0[1-9]|[1-9]| [1-9]] *)
Definition pat_d : pat Z :=
  alt (two (chr "3") (in_range "0" "1"))
 (alt (two (in_range "1" "2") is_digit)
 (alt (two (chr "0") (in_range "1" "9"))
 (alt (one_digit (in_range "1" "9"))
      (seq2 (fun _ b => digit_val b) (one (chr " ")) (one (in_range "1" "9")))))).

(** [2[0-3]|[0-1]\d|\d] *)
Definition pat_H : pat Z :=
  alt (two (chr "2") (in_range "0" "3"))
 (alt (two (in_range "0" "1") is_digit)
      (one_digit is_digit)).

(** [[0-5]\d|\d] *)
Definition pat_M : pat Z :=
  alt (two (in_range "0" "5") is_digit) (one_digit is_digit).

(** [6[0-1]|[0-5]\d|\d] *)
Definition pat_S : pat Z :=
  alt (two (chr "6") (in_range "0" "1"))
 (alt (two (in_range "0" "5") is_digit)
      (one_digit is_digit)).

(** Up to [n] digits, as many as possible first; the value is the matched
    text. *)
Fixpoint up_to (n : nat) : pat text :=
  match n with
  | O => pure []
  | S n' => alt (seq2 cons (one is_digit) (up_to n')) (pure [])
  end.

(** [[0-9]{1,6}] *)
Definition pat_f : pat text := seq2 cons (one is_digit) (up_to 5).

Definition lit (c : ascii) : pat text := seq2 (fun a _ => [a]) (one (chr c)) (pure tt).

(** A literal letter of the format, matched without regard to case. *)
Definition lit_nocase (upper lower : ascii) : pat text :=
  seq2 (fun a _ => [a]) (one (fun x => chr upper x || chr lower x)) (pure tt).

Definition cat (p q : pat text) : pat text := seq2 (@app ascii) p q.

(** [[+-]\d\d:?[0-5]\d(:?[0-5]\d(\.\d{1,6})?)?|Z]; the value is the matched
    text. *)
Definition pat_z : pat text :=
  let sign := seq2 (fun a _ => [a]) (one (fun x => chr "+" x || chr "-" x)) (pure tt) in
  let d := seq2 (fun a _ => [a]) (one is_digit) (pure tt) in
  let d05 := seq2 (fun a _ => [a]) (one (in_range "0" "5")) (pure tt) in
  let colon := opt (lit ":") [] in
  let frac := opt (cat (lit ".") pat_f) [] in
  let secs := opt (cat colon (cat d05 (cat d frac))) [] in
  alt (cat sign (cat d (cat d (cat colon (cat d05 (cat d secs))))))
      (lit "Z").

Record fields : Type := {
  f_Y : Z; f_m : Z; f_d : Z; f_H : Z; f_M : Z; f_S : Z; f_f : text; f_z : text
}.

(** The whole format [%Y-%m-%dT%H:%M:%S.%f%z]. *)
Definition pat_format : pat fields :=
  seq2 (fun Y r => r Y) pat_Y
 (seq2 (fun _ r => r) (lit "-")
 (seq2 (fun m r Y => r Y m) pat_m
 (seq2 (fun _ r => r) (lit "-")
 (seq2 (fun d r Y m => r Y m d) pat_d
 (seq2 (fun _ r => r) (lit_nocase "T" "t")
 (seq2 (fun H r Y m d => r Y m d H) pat_H
 (seq2 (fun _ r => r) (lit ":")
 (seq2 (fun Mi r Y m d H => r Y m d H Mi) pat_M
 (seq2 (fun _ r => r) (lit ":")
 (seq2 (fun S r Y m d H Mi => r Y m d H Mi S) pat_S
 (seq2 (fun _ r => r) (lit ".")
 (seq2 (fun f z Y m d H Mi S => Build_fields Y m d H Mi S f z) pat_f pat_z)))))))))))).

(** [int(s)] for a text cut out of the match: the digits must all be digits. *)
Definition int_of (t : text) : res Z :=
  match t with
  | [] => Err ValueError
  | _ => if forallb is_digit t
         then Ok (fold_left (fun acc c => 10 * acc + digit_val c) t 0)
         else Err ValueError
  end.

(** A Python slice [t[a:b]] for [0 <= a <= b]. *)
Definition slice (a b : nat) (t : text) : text := firstn (b - a) (skipn a t).

Definition pad6 (t : text) : text := t ++ repeat "0"%char (6 - List.length t).

Definition res_bind {A B} (r : res A) (k : A -> res B) : res B :=
  match r with
  | Ok a => k a
  | Err e => Err e
  end.

(** The UTC offset of the [%z] text, in microseconds. *)
Definition offset_of (z0 : text) : res Z :=
  match z0 with
  | ["Z"%char] => Ok 0
  | _ =>
    let colon3 := match nth_error z0 3 with Some c => chr ":" c | None => false end in
    let z1 := if colon3 then firstn 3 z0 ++ skipn 4 z0 else z0 in
    let bad := colon3 && (5 <? List.length z1)%nat
               && negb (match nth_error z1 5 with Some c => chr ":" c | None => false end) in
    if bad then Err ValueError else
    let z := if colon3 && (5 <? List.length z1)%nat
             then firstn 5 z1 ++ skipn 6 z1 else z1 in
    res_bind (int_of (slice 1 3 z)) (fun hours =>
    res_bind (int_of (slice 3 5 z)) (fun minutes =>
    res_bind (match slice 5 7 z with [] => Ok 0 | s => int_of s end) (fun seconds =>
    res_bind (int_of (pad6 (skipn 8 z))) (fun fraction =>
    let micros := (hours * 3600 + minutes * 60 + seconds) * 1000000 + fraction in
    Ok (match z with "-"%char :: _ => - micros | _ => micros end)))))
  end.

End Strptime.

(** Days of the proleptic Gregorian calendar, counted from 1970-01-01. *)
Module Civil.

Definition is_leap (y : Z) : bool :=
  ((y mod 4 =? 0) && negb (y mod 100 =? 0)) || (y mod 400 =? 0).

Definition days_in_month (y m : Z) : Z :=
  if m =? 2 then (if is_leap y then 29 else 28)
  else if (m =? 4) || (m =? 6) || (m =? 9) || (m =? 11) then 30
  else 31.

Definition days_from_civil (y m d : Z) : Z :=
  let y' := if m <=? 2 then y - 1 else y in
  let era := y' / 400 in
  let yoe := y' - era * 400 in
  let doy := (153 * (if 2 <? m then m - 3 else m + 9) + 2) / 5 + d - 1 in
  let doe := yoe * 365 + yoe / 4 - yoe / 100 + doy in
  era * 146097 + doe - 719468.

Definition civil_from_days (z : Z) : Z * Z * Z :=
  let z' := z + 719468 in
  let era := z' / 146097 in
  let doe := z' - era * 146097 in
  let yoe := (doe - doe / 1460 + doe / 36524 - doe / 146096) / 365 in
  let doy := doe - (365 * yoe + yoe / 4 - yoe / 100) in
  let mp := (5 * doy + 2) / 153 in
  let d := doy - (153 * mp + 2) / 5 + 1 in
  let m := if mp <? 10 then mp + 3 else mp - 9 in
  let y := yoe + era * 400 in
  ((if m <=? 2 then y + 1 else y), m, d).

(** Microseconds of the first and of the last instant a [datetime] holds:
    0001-01-01 00:00:00 and 9999-12-31 23:59:59.999999. *)
Definition min_micros : Z := days_from_civil 1 1 1 * 86400000000.
Definition max_micros : Z := (days_from_civil 9999 12 31 + 1) * 86400000000 - 1.

Definition in_datetime_range (us : Z) : bool := (min_micros <=? us) && (us <=? max_micros).

(** The America/Los_Angeles rule of the time zone database in force since
    2007: daylight time (UTC-7) from the second Sunday of March, 10:00 UTC, to
    the first Sunday of November, 09:00 UTC; standard time (UTC-8) otherwise.
    The table that [pytz] ships ends with the transitions of 2037: from 2038
    on it stays at standard time.  The argument is in seconds since the
    epoch, UTC. *)
Definition first_sunday_from (day : Z) : Z := day + (7 - (day + 4) mod 7) mod 7.

Definition los_angeles_since_2007 (utc : Z) : Z :=
  let '(y, _, _) := civil_from_days (utc / 86400) in
  let dst_start := (first_sunday_from (days_from_civil y 3 1) + 7) * 86400 + 10 * 3600 in
  let dst_end := first_sunday_from (days_from_civil y 11 1) * 86400 + 9 * 3600 in
  if (y <=? 2037) && (dst_start <=? utc) && (utc <? dst_end) then -25200 else -28800.

End Civil.

(** [str(v)] as an f-string formats a value.  The text of a list or of a dict
    is Python's [repr], which the pipeline never looks into: it is the
    parameter [py_repr]. *)
Definition py_str (py_repr : json -> string) (v : json) : string :=
  match v with
  | JStr s => s
  | JNum n => decimal n
  | JNull => "None"
  | JBool true => "True"
  | JBool false => "False"
  | JArr _ | JObj _ => py_repr v
  end.

Section Timezone.

(** The UTC offset of America/Los_Angeles, in seconds, at an instant given in
    seconds since the epoch: the table of the time zone database that [pytz]
    ships.  [Civil.los_angeles_since_2007] is that table for the instants from
    2007 on. *)
Variable la_utcoffset : Z -> Z.

(** [datetime.strptime(s, '%Y-%m-%dT%H:%M:%S.%f%z')]: the wall-clock time and
    the UTC offset, both in microseconds. *)
Definition strptime (s : string) : res (Z * Z) :=
  match Strptime.pat_format (list_ascii_of_string s) with
  | [] => Err ValueError
  | (f, _ :: _) :: _ => Err ValueError
  | (f, []) :: _ =>
    Strptime.res_bind (Strptime.offset_of (Strptime.f_z f)) (fun offset =>
    Strptime.res_bind (Strptime.int_of (Strptime.pad6 (Strptime.f_f f))) (fun fraction =>
    let Y := Strptime.f_Y f in
    let m := Strptime.f_m f in
    let d := Strptime.f_d f in
    if (Y <? 1) || (Civil.days_in_month Y m <? d) || (59 <? Strptime.f_S f)
       || negb (Z.abs offset <? 86400000000)
    then Err ValueError
    else
      let seconds := Civil.days_from_civil Y m d * 86400
                     + Strptime.f_H f * 3600 + Strptime.f_M f * 60 + Strptime.f_S f in
      Ok (seconds * 1000000 + fraction, offset)))
  end.

Definition two_digits (n : Z) : string :=
  if n <? 10 then "0" ++ decimal n else decimal n.

(** [strftime('%Y-%m-%d %H:%M:%S PDT')] of a wall-clock time in microseconds.
    The year is printed as the C library prints it, without padding. *)
Definition strftime (us : Z) : string :=
  let secs := us / 1000000 in
  let '(y, m, d) := Civil.civil_from_days (secs / 86400) in
  let sod := secs mod 86400 in
  decimal y ++ "-" ++ two_digits m ++ "-" ++ two_digits d ++ " "
  ++ two_digits (sod / 3600) ++ ":" ++ two_digits (sod mod 3600 / 60) ++ ":"
  ++ two_digits (sod mod 60) ++ " PDT".

Definition convert_to_pdt (utc_time : json) : res string :=
  match utc_time with
  | JStr s =>
    Strptime.res_bind (strptime s) (fun '(wall, offset) =>
    let utc := wall - offset in
    if negb (Civil.in_datetime_range utc) then Err OverflowError else
    let pdt := utc + la_utcoffset (utc / 1000000) * 1000000 in
    if negb (Civil.in_datetime_range pdt) then Err OverflowError else
    Ok (strftime pdt))
  | _ => Err TypeError
  end.

End Timezone.

(** ** API client, paginator and deployment resolver *)

Section Pipeline.

Variable server : string -> http_outcome.
Variable py_repr : json -> string.
Variable la_utcoffset : Z -> Z.

Local Abbreviation str := (py_str py_repr).

Definition make_api_request (endpoint : string) : M json :=
  let url := api_url endpoint in
  match server url with
  | TransportError => (Raise ConnectionError, [url])
  | Response status_code body =>
    if status_code =? 200
    then match body with
         | Some document => (Ret document, [url])
         | None => (Raise JSONDecodeError, [url])
         end
    else (Ret JNull, [url])
  end.

Definition take : Z := 30.

Definition deployments_endpoint (project_id environment_id : json) (skip : Z) : string :=
  "deployments?projects=" ++ str project_id ++ "&environments=" ++ str environment_id
  ++ "&skip=" ++ str (JNum skip) ++ "&take=" ++ str (JNum take).

(** The [while True] loop of [fetch_deployments_with_pagination], entered with
    the current [skip] and [all_items]. *)
Fixpoint pagination_loop (fuel : nat) (project_id environment_id : json)
    (skip : Z) (all_items : list json) : M (list json) :=
  match fuel with
  | O => (Diverge, [])
  | S fuel' =>
    result <- make_api_request (deployments_endpoint project_id environment_id skip) ;;
    if negb (truthy result) then ret all_items else
    items <- lift (subscript result "Items") ;;
    if negb (truthy items) then ret all_items else
    items_count <- lift (py_len items) ;;
    new_items <- lift (py_iter items) ;;
    let all_items := all_items ++ new_items in
    if items_count <? take then ret all_items
    else pagination_loop fuel' project_id environment_id (skip + take) all_items
  end.

Definition fetch_deployments_with_pagination (fuel : nat)
    (project_id environment_id : json) : M (list json) :=
  pagination_loop fuel project_id environment_id 0 [].

(** The [for deployment in deployments[1:]] loop of [process_deployment]: it
    returns [output], updated when a successful deployment is found. *)
Fixpoint last_successful_loop (older : list json) (output : dict) : M dict :=
  match older with
  | [] => ret output
  | deployment :: older' =>
    task_id <- lift (subscript deployment "TaskId") ;;
    task <- make_api_request ("tasks/" ++ str task_id)%string ;;
    if negb (truthy task) then last_successful_loop older' output else
    state <- lift (dict_get task "State" (JStr "Unknown")) ;;
    if negb (eq_str state "Success") then last_successful_loop older' output else
    release_id <- lift (subscript deployment "ReleaseId") ;;
    success_release <- make_api_request ("releases/" ++ str release_id)%string ;;
    version <- lift (subscript success_release "Version") ;;
    let output := dict_set output "last_successful_version" version in
    created <- lift (subscript deployment "Created") ;;
    date <- lift (convert_to_pdt la_utcoffset created) ;;
    ret (dict_set output "last_successful_date" (JStr date))
  end.

(** The body of the [try] block of [process_deployment]. *)
Definition process_deployment_body (fuel : nat) (project_id environment_id : json)
    : M (option (json * dict)) :=
  deployments <- fetch_deployments_with_pagination fuel project_id environment_id ;;
  match deployments with
  | [] => ret None
  | latest_deployment :: older =>
    release_id <- lift (subscript latest_deployment "ReleaseId") ;;
    release <- make_api_request ("releases/" ++ str release_id)%string ;;
    task_id <- lift (subscript latest_deployment "TaskId") ;;
    task <- make_api_request ("tasks/" ++ str task_id)%string ;;
    if negb (truthy release) || negb (truthy task) then ret None else
    state <- lift (dict_get task "State" (JStr "Unknown")) ;;
    let failed := eq_str state "Failed" in
    version <- lift (subscript release "Version") ;;
    release_notes <- lift (dict_get release "ReleaseNotes" JNull) ;;
    created <- lift (subscript latest_deployment "Created") ;;
    deployment_date <- lift (convert_to_pdt la_utcoffset created) ;;
    let output := [("version", version); ("release_notes", release_notes);
                   ("deployment_date", JStr deployment_date)] in
    output <- (if failed
               then last_successful_loop older (dict_set output "failed" (JBool true))
               else ret output) ;;
    ret (Some (environment_id, output))
  end.

Definition process_deployment (fuel : nat) (project_id environment_id : json)
    : M (option (json * dict)) :=
  try_except (process_deployment_body fuel project_id environment_id)
             (fun _ => ret None).

(** ** Aggregator *)

Definition fetch_all_projects : M json :=
  projects <- make_api_request "projects/all" ;;
  _ <- (if truthy projects then lift (py_len projects) else ret 0) ;;
  ret (if truthy projects then projects else JArr []).

Definition fetch_project_details (project_id : json) : M json :=
  make_api_request ("projects/" ++ str project_id)%string.

Definition fetch_all_project_groups : M json :=
  groups <- make_api_request "projectgroups/all" ;;
  _ <- (if truthy groups then lift (py_len groups) else ret 0) ;;
  ret (if truthy groups then groups else JArr []).

Definition fetch_all_environments : M json :=
  environments <- make_api_request "environments/all" ;;
  _ <- (if truthy environments then lift (py_len environments) else ret 0) ;;
  ret (if truthy environments then environments else JArr []).

End Pipeline.

(** The type of [projects_by_group]: a [defaultdict(list)], as its keys in
    insertion order with the projects appended under each. *)
Definition group_table : Type := list (json * list json).

Fixpoint group_append (t : group_table) (k : json) (project : json) : group_table :=
  match t with
  | [] => [(k, [project])]
  | (k', ps) :: t' =>
    if key_eq k k' then (k', ps ++ [project]) :: t'
    else (k', ps) :: group_append t' k project
  end.

(** [projects_by_group[k]]; a missing key reads as the empty list (and is
    created with it, which no later read can tell). *)
Fixpoint group_lookup (t : group_table) (k : json) : list json :=
  match t with
  | [] => []
  | (k', ps) :: t' => if key_eq k k' then ps else group_lookup t' k
  end.

(** [for project in projects:
       projects_by_group[project['ProjectGroupId']].append(project)],
    entered with the table built so far. *)
Fixpoint projects_by_group (projects : list json) (t : group_table) : res group_table :=
  match projects with
  | [] => Ok t
  | project :: rest =>
    match subscript project "ProjectGroupId" with
    | Err e => Err e
    | Ok group_id =>
      if hashable group_id then projects_by_group rest (group_append t group_id project)
      else Err TypeError
    end
  end.

(** [env_data]: a dict keyed by environment identifier. *)
Definition env_table : Type := list (json * dict).

Fixpoint env_set (t : env_table) (k : json) (data : dict) : env_table :=
  match t with
  | [] => [(k, data)]
  | (k', data') :: t' =>
    if key_eq k k' then (k', data) :: t' else (k', data') :: env_set t' k data
  end.

(** [list(env_data.values())], each value a JSON object. *)
Definition env_values (t : env_table) : list json := map (fun kv => JObj (snd kv)) t.

Fixpoint remove_nth {A} (n : nat) (l : list A) : list A :=
  match n, l with
  | _, [] => []
  | O, _ :: l' => l'
  | S n', a :: l' => a :: remove_nth n' l'
  end.

(** [concurrent.futures.as_completed]: the pending futures in the order they
    complete.  The order is not fixed by the program; [choices] resolves it,
    each choice picking one of the futures still pending (modulo their
    number, the first one when the choices run out).  Whatever the choices,
    each future comes out exactly once. *)
Fixpoint as_completed {A} (n : nat) (choices : list nat) (pending : list A) : list A :=
  match n with
  | O => []
  | S n' =>
    let k := match choices with
             | [] => O
             | c :: _ => Nat.modulo c (List.length pending)
             end in
    match nth_error pending k with
    | Some future => future :: as_completed n' (tl choices) (remove_nth k pending)
    | None => []
    end
  end.

(** What a completed future holds: the environment it was submitted for and
    what [future.result()] gives, the result of the callable or the exception
    it raised. *)
Definition future : Type := (json * res (option (json * dict)))%type.

(** [executor.submit]: the callable runs in a worker; an exception it raises
    is kept in the future.  A callable that never returns leaves the future
    pending for ever. *)
Definition submitted {A} (m : M A) : M (res A) :=
  match m with
  | (Ret a, t) => (Ret (Ok a), t)
  | (Raise e, t) => (Ret (Err e), t)
  | (Diverge, t) => (Diverge, t)
  end.

(** The [for future in as_completed(futures)] loop.  A result is stored under
    its environment identifier with the environment's name added.  An
    exception in the [try] block (from [future.result()], from a missing
    name, from an unhashable identifier) is logged by the handler; the
    handler's log line reads [env['Name']], so a missing name raises out of
    the loop. *)
Fixpoint collect_env_data (completed : list future) (env_data : env_table) : res env_table :=
  match completed with
  | [] => Ok env_data
  | (env, Err _) :: rest =>
    match subscript env "Name" with
    | Err e => Err e
    | Ok _ => collect_env_data rest env_data
    end
  | (env, Ok None) :: rest => collect_env_data rest env_data
  | (env, Ok (Some (env_id, data))) :: rest =>
    match subscript env "Name" with
    | Err e => Err e
    | Ok name =>
      if hashable env_id
      then collect_env_data rest (env_set env_data env_id (dict_set data "name" name))
      else collect_env_data rest env_data
    end
  end.

Section Aggregator.

Variable server : string -> http_outcome.
Variable py_repr : json -> string.

(** The completion order of the futures of project [pi] of group [gi]. *)
Variable sched : nat -> nat -> list nat.

(** The callable submitted to the executor ([process_deployment]). *)
Variable resolve : json -> json -> M (option (json * dict)).

(** Lines 179-192: one future per environment, then the fan-in. *)
Definition project_environments (gi pi : nat) (project_id : json) (environments : json)
    : M env_table :=
  envs <- lift (py_iter environments) ;;
  futures <- mapM (fun env =>
                     env_id <- lift (subscript env "Id") ;;
                     result <- submitted (resolve project_id env_id) ;;
                     ret (env, result)) envs ;;
  lift (collect_env_data (as_completed (List.length futures) (sched gi pi) futures) []).

Definition git_url_of (project_details : json) : res json :=
  if truthy project_details then
    match dict_get project_details "PersistenceSettings" (JObj []) with
    | Err e => Err e
    | Ok settings => dict_get settings "Url" JNull
    end
  else Ok JNull.

(** The body of [for project in group_projects]. *)
Definition process_project (gi pi : nat) (project : json) (environments : json) : M json :=
  name <- lift (subscript project "Name") ;;
  project_id <- lift (subscript project "Id") ;;
  project_details <- fetch_project_details server py_repr project_id ;;
  git_url <- lift (git_url_of project_details) ;;
  env_data <- project_environments gi pi project_id environments ;;
  ret (JObj [("id", project_id); ("name", name); ("git_url", git_url);
             ("environments", JArr (env_values env_data))]).

Fixpoint process_projects (gi pi : nat) (group_projects : list json) (environments : json)
    : M (list json) :=
  match group_projects with
  | [] => ret []
  | project :: rest =>
    project_data <- process_project gi pi project environments ;;
    others <- process_projects gi (S pi) rest environments ;;
    ret (project_data :: others)
  end.

(** The body of [for group in project_groups]. *)
Definition process_group (gi : nat) (group : json) (by_group : group_table)
    (environments : json) : M json :=
  name <- lift (subscript group "Name") ;;
  group_id <- lift (subscript group "Id") ;;
  members <- lift (if hashable group_id
                   then Ok (group_lookup by_group group_id)
                   else Err TypeError) ;;
  projects <- process_projects gi O members environments ;;
  ret (JObj [("id", group_id); ("name", name); ("projects", JArr projects)]).

Fixpoint process_groups (gi : nat) (project_groups : list json)
    (by_group : group_table) (environments : json) : M (list json) :=
  match project_groups with
  | [] => ret []
  | group :: rest =>
    group_data <- process_group gi group by_group environments ;;
    others <- process_groups (S gi) rest by_group environments ;;
    ret (group_data :: others)
  end.

Definition fetch_all_deployment_data_with : M (list json) :=
  projects <- fetch_all_projects server ;;
  project_groups <- fetch_all_project_groups server ;;
  environments <- fetch_all_environments server ;;
  project_list <- lift (py_iter projects) ;;
  by_group <- lift (projects_by_group project_list []) ;;
  groups <- lift (py_iter project_groups) ;;
  process_groups O groups by_group environments.

End Aggregator.

(** [fetch_all_deployment_data]: the aggregator with [process_deployment] as
    the submitted callable. *)
Definition fetch_all_deployment_data (server : string -> http_outcome)
    (py_repr : json -> string) (la_utcoffset : Z -> Z) (sched : nat -> nat -> list nat)
    (fuel : nat) : M (list json) :=
  fetch_all_deployment_data_with server py_repr sched
    (process_deployment server py_repr la_utcoffset fuel).

(** ** Vocabulary of the properties *)

Section Pages.

Variable server : string -> http_outcome.
Variable py_repr : json -> string.
Variables project_id environment_id : json.

(** The answer of the API client for page [k] of a pair's deployments. *)
Definition page_response (k : nat) : outcome json :=
  fst (make_api_request server
         (deployments_endpoint py_repr project_id environment_id (take * Z.of_nat k))).

Definition page_request (k : nat) : string :=
  api_url (deployments_endpoint py_repr project_id environment_id (take * Z.of_nat k)).

(** A page that holds at least the page size: more may follow. *)
Definition full_page (o : outcome json) (items : list json) : Prop :=
  exists result,
    o = Ret result /\ truthy result = true
    /\ subscript result "Items" = Ok (JArr items)
    /\ take <= Z.of_nat (List.length items).

(** A page that ends the data: the client returned [None] (or an empty
    document), the page is empty, or it is shorter than the page size. *)
Definition last_page (o : outcome json) (items : list json) : Prop :=
  (exists result, o = Ret result /\ truthy result = false /\ items = [])
  \/ (exists result v,
        o = Ret result /\ truthy result = true
        /\ subscript result "Items" = Ok v /\ truthy v = false /\ items = [])
  \/ (exists result,
        o = Ret result /\ truthy result = true
        /\ subscript result "Items" = Ok (JArr items)
        /\ items <> [] /\ Z.of_nat (List.length items) < take).

End Pages.

Section Records.

Variable server : string -> http_outcome.
Variable py_repr : json -> string.
Variable la_utcoffset : Z -> Z.

Definition release_endpoint (release_id : json) : string :=
  "releases/" ++ py_str py_repr release_id.

Definition task_endpoint (task_id : json) : string :=
  "tasks/" ++ py_str py_repr task_id.

(** The request for the task, and for the release, of a deployment record. *)
Definition task_request (deployment : json) : list string :=
  match subscript deployment "TaskId" with
  | Ok task_id => [api_url (task_endpoint task_id)]
  | Err _ => []
  end.

Definition release_request (deployment : json) : list string :=
  match subscript deployment "ReleaseId" with
  | Ok release_id => [api_url (release_endpoint release_id)]
  | Err _ => []
  end.

(** What the client answers when asked for the task of a record. *)
Definition task_of (deployment task : json) : Prop :=
  exists task_id,
    subscript deployment "TaskId" = Ok task_id
    /\ fst (make_api_request server (task_endpoint task_id)) = Ret task.

(** What the client answers when asked for the release of a record. *)
Definition release_of (deployment release : json) : Prop :=
  exists release_id,
    subscript deployment "ReleaseId" = Ok release_id
    /\ fst (make_api_request server (release_endpoint release_id)) = Ret release.

(** The state the resolver reads from a task that was fetched. *)
Definition state_of (task state : json) : Prop :=
  truthy task = true /\ dict_get task "State" (JStr "Unknown") = Ok state.

(** The display date of a record. *)
Definition date_of (deployment : json) (date : string) : Prop :=
  exists created,
    subscript deployment "Created" = Ok created
    /\ convert_to_pdt la_utcoffset created = Ok date.

(** The version of the release of a record. *)
Definition version_of (deployment version : json) : Prop :=
  exists release, release_of deployment release /\ subscript release "Version" = Ok version.

(** [release.get('ReleaseNotes', None)] of a release that was fetched. *)
Definition release_notes_of (release : json) : json :=
  match dict_get release "ReleaseNotes" JNull with
  | Ok notes => notes
  | Err _ => JNull
  end.

(** The report of a pair before the failure handling. *)
Definition base_report (version notes : json) (date : string) : dict :=
  [("version", version); ("release_notes", notes); ("deployment_date", JStr date)].

(** A record whose task was fetched with state Success. *)
Definition successful (deployment : json) : Prop :=
  exists task, task_of deployment task /\ state_of task (JStr "Success").

(** A record the scan passes over: its task is [None] (or empty), or its
    state is not Success. *)
Definition not_successful (deployment : json) : Prop :=
  exists task,
    task_of deployment task
    /\ (truthy task = false
        \/ exists state, state_of task state /\ eq_str state "Success" = false).

(** The report of a pair once its latest record is in hand: the scan of the
    older records completes it when the latest deployment failed. *)
Definition completed_report (state : json) (older : list json) (base : dict) : M dict :=
  if eq_str state "Failed"
  then last_successful_loop server py_repr la_utcoffset older
         (dict_set base "failed" (JBool true))
  else ret base.

End Records.

Section Reports.

(** Whether a project belongs to the group with identifier [group_id]: its
    [ProjectGroupId] equals it, as dict keys are equal. *)
Definition in_group (group_id project : json) : bool :=
  match subscript project "ProjectGroupId" with
  | Ok g => key_eq group_id g
  | Err _ => false
  end.

(** The projects of a group, in the order of the source list. *)
Definition members (projects : list json) (group_id : json) : list json :=
  filter (in_group group_id) projects.

(** A document fetched by one of the [fetch_all_...] calls, as the list the
    aggregator iterates over. *)
Definition listed (m : M json) (l : list json) : Prop :=
  exists document, fst m = Ret document /\ py_iter document = Ok l.

(** [report] is a ProjectReport of [project]. *)
Definition project_report (project report : json) : Prop :=
  exists id name git_url environments,
    subscript project "Id" = Ok id /\ subscript project "Name" = Ok name
    /\ report = JObj [("id", id); ("name", name); ("git_url", git_url);
                      ("environments", JArr environments)].

(** [report] is the GroupReport of [group]: it holds one ProjectReport for
    each member of the group among [projects], in their order. *)
Definition group_report (projects : list json) (group report : json) : Prop :=
  exists id name project_reports,
    subscript group "Id" = Ok id /\ subscript group "Name" = Ok name
    /\ report = JObj [("id", id); ("name", name); ("projects", JArr project_reports)]
    /\ Forall2 project_report (members projects id) project_reports.

End Reports.

(** Two lists related element by element, the relation knowing the position. *)
Inductive Forall2_from {A B} (R : nat -> A -> B -> Prop) : nat -> list A -> list B -> Prop :=
| Forall2_from_nil i : Forall2_from R i [] []
| Forall2_from_cons i a b la lb :
    R i a b -> Forall2_from R (S i) la lb -> Forall2_from R i (a :: la) (b :: lb).

Section Containment.

Variable sched : nat -> nat -> list nat.
Variable resolve : json -> json -> M (option (json * dict)).

(** The pairs whose resolution fails: the projects selected by [target], in
    the environment [e0]. *)
Variable target : json -> bool.
Variable e0 : json.

(** The environment table without what is stored for [e0]. *)
Definition env_remove (t : env_table) : env_table :=
  filter (fun kv => negb (key_eq (fst kv) e0)) t.

(** A future of the run without failure, as it completes when the pair of
    [e0] fails: with no result. *)
Definition failing (f : future) : future :=
  match f with
  | (env, Ok (Some (env_id, data))) =>
    (env, if key_eq env_id e0 then Ok None else Ok (Some (env_id, data)))
  | _ => f
  end.

(** [b] is the ProjectReport [a] of project [pi] of group [gi] without the
    report of [e0] when the project is a target, and [a] itself otherwise. *)
Definition project_contained (environments : json) (gi pi : nat) (a b : json) : Prop :=
  exists id name git_url table,
    fst (project_environments sched resolve gi pi id environments) = Ret table
    /\ a = JObj [("id", id); ("name", name); ("git_url", git_url);
                 ("environments", JArr (env_values table))]
    /\ b = JObj [("id", id); ("name", name); ("git_url", git_url);
                 ("environments",
                  JArr (env_values (if target id then env_remove table else table)))].

Definition group_contained (environments : json) (gi : nat) (a b : json) : Prop :=
  exists id name projects_a projects_b,
    a = JObj [("id", id); ("name", name); ("projects", JArr projects_a)]
    /\ b = JObj [("id", id); ("name", name); ("projects", JArr projects_b)]
    /\ Forall2_from (project_contained environments gi) O projects_a projects_b.

Definition report_contained (environments : json) (a b : list json) : Prop :=
  Forall2_from (group_contained environments) O a b.

End Containment.

(** ** Vocabulary of the further properties *)

(** A page the paginator cannot read: the client raised, the document has no
    [Items], or its [Items] is a value without a length. *)
Definition broken_page (o : outcome json) (e : exn) : Prop :=
  o = Raise e
  \/ (exists result,
        o = Ret result /\ truthy result = true /\ subscript result "Items" = Err e)
  \/ (exists result items,
        o = Ret result /\ truthy result = true
        /\ subscript result "Items" = Ok items /\ truthy items = true
        /\ py_len items = Err e).

(** A project the grouping loop can file: it has a [ProjectGroupId] that can
    be a dict key. *)
Definition groupable (project : json) : Prop :=
  exists group_id,
    subscript project "ProjectGroupId" = Ok group_id /\ hashable group_id = true.

(** A completed future the fan-in loop gets through: it holds no report and
    no exception, or its environment has a [Name]. *)
Definition passes (f : future) : Prop :=
  snd f = Ok None \/ exists name, subscript (fst f) "Name" = Ok name.

(** The keys of an environment table are pairwise different as dict keys. *)
Definition distinct_keys (t : env_table) : Prop :=
  ForallOrdPairs (fun a b => key_eq (fst a) (fst b) = false) t.

(** Two environments whose identifiers are different dict keys. *)
Definition different_ids (a b : json) : Prop :=
  forall id_a id_b,
    subscript a "Id" = Ok id_a -> subscript b "Id" = Ok id_b -> key_eq id_a id_b = false.

(** Two completed futures whose reports are for different identifiers. *)
Definition apart (f g : future) : Prop :=
  forall id data id' data',
    snd f = Ok (Some (id, data)) -> snd g = Ok (Some (id', data')) ->
    key_eq id id' = false.

(** What a completed future adds to a table that has no entry for it. *)
Definition stored (f : future) : env_table :=
  match f with
  | (env, Ok (Some (env_id, data))) =>
    if hashable env_id
    then match subscript env "Name" with
         | Ok name => [(env_id, dict_set data "name" name)]
         | Err _ => []
         end
    else []
  | _ => []
  end.

(** A pattern hands back a suffix of the text it was given. *)
Definition consumes {A} (p : Strptime.pat A) : Prop :=
  forall t a rest, In (a, rest) (p t) -> exists read, t = (read ++ rest)%list.

(** A pattern only matches a text that holds the character [c]. *)
Definition needs {A} (c : ascii) (p : Strptime.pat A) : Prop :=
  forall t a rest, In (a, rest) (p t) -> In c t.

(** ** Sample backing data, used to run the pipeline on concrete inputs *)

Module Sample.

(** A service given by a table of URLs; any other URL answers 404. *)
Fixpoint serve (table : list (string * http_outcome)) (url : string) : http_outcome :=
  match table with
  | [] => Response 404 None
  | (u, r) :: table' => if String.eqb u url then r else serve table' url
  end.

Definition ok (document : json) : http_outcome := Response 200 (Some document).

(** No list or dict is formatted into a URL in the samples. *)
Definition repr (_ : json) : string := "?".

Definition deployment (n : string) (created : string) : json :=
  JObj [("Id", JStr ("Deployments-" ++ n)); ("ReleaseId", JStr ("Releases-" ++ n));
        ("TaskId", JStr ("ServerTasks-" ++ n)); ("Created", JStr created)].

Definition new_year : string := "2024-01-01T00:00:00.000000+00:00".

Definition page (n : nat) : http_outcome :=
  ok (JObj [("Items", JArr (repeat (deployment "1" new_year) n))]).

Definition page_url (project environment skip : string) : string :=
  api_url ("deployments?projects=" ++ project ++ "&environments=" ++ environment
           ++ "&skip=" ++ skip ++ "&take=30").

(** Pages of 30, 30 and 17 deployments. *)
Definition pages_30_30_17 : string -> http_outcome :=
  serve [(page_url "P" "E" "0", page 30); (page_url "P" "E" "30", page 30);
         (page_url "P" "E" "60", page 17)].

(** Pages of 30, 30, 30 and 0 deployments. *)
Definition pages_30_30_30_0 : string -> http_outcome :=
  serve [(page_url "P" "E" "0", page 30); (page_url "P" "E" "30", page 30);
         (page_url "P" "E" "60", page 30); (page_url "P" "E" "90", page 0)].

Definition in_july : string := "2024-07-01T12:30:00.000+00:00".

(** A pair with three deployments, latest first: the latest failed, the one
    before has a task without a state, the oldest succeeded. *)

Definition history_table : list (string * http_outcome) :=
  [(page_url "Projects-1" "Environments-1" "0",
    ok (JObj [("Items", JArr [deployment "3" new_year; deployment "2" in_july;
                              deployment "1" in_july])]));
   (api_url "releases/Releases-3",
    ok (JObj [("Version", JStr "1.3"); ("ReleaseNotes", JStr "third")]));
   (api_url "releases/Releases-2", ok (JObj [("Version", JStr "1.2")]));
   (api_url "releases/Releases-1", ok (JObj [("Version", JStr "1.1")]));
   (api_url "tasks/ServerTasks-3", ok (JObj [("State", JStr "Failed")]));
   (api_url "tasks/ServerTasks-2", ok (JObj [("Id", JStr "ServerTasks-2")]));
   (api_url "tasks/ServerTasks-1", ok (JObj [("State", JStr "Success")]))].

Definition history : string -> http_outcome := serve history_table.

Definition project_1 : json := JStr "Projects-1".
Definition environment_1 : json := JStr "Environments-1".

(** A space with two groups, three projects (one of them in a group that is
    not listed) and two environments, on top of the sample history. *)
Definition project (n group : string) : json :=
  JObj [("Id", JStr ("Projects-" ++ n)); ("Name", JStr ("project " ++ n));
        ("ProjectGroupId", JStr ("ProjectGroups-" ++ group))].

Definition group (n : string) : json :=
  JObj [("Id", JStr ("ProjectGroups-" ++ n)); ("Name", JStr ("group " ++ n))].

Definition environment (n : string) : json :=
  JObj [("Id", JStr ("Environments-" ++ n)); ("Name", JStr ("environment " ++ n))].

Definition space : string -> http_outcome :=
  serve (history_table ++
         [(api_url "projects/all",
           ok (JArr [project "1" "1"; project "2" "9"; project "3" "1"]));
          (api_url "projectgroups/all", ok (JArr [group "1"; group "2"]));
          (api_url "environments/all", ok (JArr [environment "1"; environment "2"]));
          (api_url "projects/Projects-1",
           ok (JObj [("PersistenceSettings", JObj [("Url", JStr "https://git.example.com/p1")])]));
          (page_url "Projects-1" "Environments-2" "0",
           ok (JObj [("Items", JArr [deployment "1" in_july])]))]).

(** The report of the sample space when futures complete in submission
    order. *)
Definition space_report : list json :=
  [JObj [("id", JStr "ProjectGroups-1"); ("name", JStr "group 1");
         ("projects",
          JArr [JObj [("id", JStr "Projects-1"); ("name", JStr "project 1");
                      ("git_url", JStr "https://git.example.com/p1");
                      ("environments",
                       JArr [JObj [("version", JStr "1.3");
                                   ("release_notes", JStr "third");
                                   ("deployment_date", JStr "2023-12-31 16:00:00 PDT");
                                   ("failed", JBool true);
                                   ("last_successful_version", JStr "1.1");
                                   ("last_successful_date", JStr "2024-07-01 05:30:00 PDT");
                                   ("name", JStr "environment 1")];
                             JObj [("version", JStr "1.1");
                                   ("release_notes", JNull);
                                   ("deployment_date", JStr "2024-07-01 05:30:00 PDT");
                                   ("name", JStr "environment 2")]])];
                JObj [("id", JStr "Projects-3"); ("name", JStr "project 3");
                      ("git_url", JNull); ("environments", JArr [])]])];
   JObj [("id", JStr "ProjectGroups-2"); ("name", JStr "group 2");
         ("projects", JArr [])]].

Definition environment_2 : json := JStr "Environments-2".

(** Every project is a target. *)
Definition everywhere : json -> bool := fun _ => true.

(** A service no request reaches. *)
Definition unreachable : string -> http_outcome := fun _ => TransportError.

(** The resolver on the sample space, and the same resolver when every
    request made for environment 2 fails in transport. *)
Definition resolver : json -> json -> M (option (json * dict)) :=
  process_deployment space repr Civil.los_angeles_since_2007 3.

Definition resolver_failing_2 : json -> json -> M (option (json * dict)) :=
  fun project_id environment_id =>
    if key_eq environment_id environment_2
    then process_deployment unreachable repr Civil.los_angeles_since_2007 3
           project_id environment_id
    else resolver project_id environment_id.

(** Futures complete in the order they were submitted. *)
Definition in_order : nat -> nat -> list nat := fun _ _ => [].

(** Of two futures, the second completes first. *)
Definition reversed : nat -> nat -> list nat := fun _ _ => [1%nat].

(** A full page, then a page whose request fails in transport. *)
Definition pages_30_then_down : string -> http_outcome :=
  serve [(page_url "P" "E" "0", page 30); (page_url "P" "E" "30", TransportError)].

(** The sample history when the release of the successful deployment is no
    longer found. *)
Definition history_without_release_1 : string -> http_outcome :=
  serve ((api_url "releases/Releases-1", Response 404 None) :: history_table).

(** The report of the sample history. *)
Definition history_report : dict :=
  [("version", JStr "1.3");
   ("release_notes", JStr "third");
   ("deployment_date", JStr "2023-12-31 16:00:00 PDT");
   ("failed", JBool true);
   ("last_successful_version", JStr "1.1");
   ("last_successful_date", JStr "2024-07-01 05:30:00 PDT")].

(** A space whose group listing is not found: three projects, no group. *)
Definition space_without_groups : string -> http_outcome :=
  serve [(api_url "projects/all",
          ok (JArr [project "1" "1"; project "2" "9"; project "3" "1"]));
         (api_url "environments/all", ok (JArr [environment "1"; environment "2"]))].

(** A space with a project that has no [ProjectGroupId]. *)
Definition stray_project : json :=
  JObj [("Id", JStr "Projects-7"); ("Name", JStr "project 7")].

Definition space_with_stray : string -> http_outcome :=
  serve [(api_url "projects/all", ok (JArr [project "1" "1"; stray_project]));
         (api_url "projectgroups/all", ok (JArr [group "1"]));
         (api_url "environments/all", ok (JArr [environment "1"]))].

(** Three completed futures of one project: a report for environment 1, no
    report for environment 2, a second report for environment 1. *)
Definition completed_futures : list future :=
  [(environment "1", Ok (Some (environment_1, [("version", JStr "1.3")])));
   (environment "2", Ok None);
   (environment "1", Ok (Some (environment_1, [("version", JStr "1.4")])))].

(** A project whose details hold [null] as persistence settings. *)
Definition space_with_null_settings : string -> http_outcome :=
  serve [(api_url "projects/Projects-1", ok (JObj [("PersistenceSettings", JNull)]))].

(** A timestamp with whole seconds, written without a fraction. *)
Definition whole_seconds : string := "2024-01-01T00:00:00+00:00".

Definition history_whole_seconds : string -> http_outcome :=
  serve ((page_url "Projects-1" "Environments-1" "0",
          ok (JObj [("Items", JArr [deployment "3" whole_seconds])]))
         :: history_table).

End Sample.

(** * Properties *)

(** ** Computations *)

Lemma fst_bind {A B} (m : M A) (k : A -> M B) :
  fst (bind m k) = match fst m with
                   | Ret a => fst (k a)
                   | Raise e => Raise e
                   | Diverge => Diverge
                   end.
Proof.
  destruct m as [[a | e |] t]; simpl; auto.
  destruct (k a); reflexivity.
Qed.

Lemma snd_bind {A B} (m : M A) (k : A -> M B) :
  snd (bind m k) = match fst m with
                   | Ret a => (snd m ++ snd (k a))%list
                   | _ => snd m
                   end.
Proof.
  destruct m as [[a | e |] t]; simpl; auto.
  destruct (k a); reflexivity.
Qed.

Lemma bind_ret {A B} (m : M A) (k : A -> M B) a t :
  m = (Ret a, t) -> bind m k = (fst (k a), (t ++ snd (k a))%list).
Proof. intros ->. simpl. destruct (k a); reflexivity. Qed.

Lemma bind_pair {A B} (a : A) t (k : A -> M B) :
  bind (Ret a, t) k = (fst (k a), (t ++ snd (k a))%list).
Proof. simpl. destruct (k a); reflexivity. Qed.

Lemma bind_lift_ok {A B} (r : res A) (k : A -> M B) a :
  r = Ok a -> bind (lift r) k = k a.
Proof. intros ->. simpl. destruct (k a); reflexivity. Qed.

Lemma bind_lift_err {A B} (r : res A) (k : A -> M B) e :
  r = Err e -> bind (lift r) k = (Raise e, []).
Proof. intros ->. reflexivity. Qed.

Lemma bind_inv {A B} (m : M A) (k : A -> M B) b t :
  bind m k = (Ret b, t) ->
  exists a t1 t2, m = (Ret a, t1) /\ k a = (Ret b, t2) /\ t = (t1 ++ t2)%list.
Proof.
  destruct m as [[a | e |] t1]; simpl; try discriminate.
  destruct (k a) as [o t2] eqn:E. intros [= -> <-].
  exists a, t1, t2. auto.
Qed.

Lemma fst_bind_inv {A B} (m : M A) (k : A -> M B) b :
  fst (bind m k) = Ret b -> exists a, fst m = Ret a /\ fst (k a) = Ret b.
Proof.
  rewrite fst_bind. destruct (fst m) as [a | e |]; try discriminate. eauto.
Qed.

(** A computation whose steps all come back comes back. *)
Lemma bind_returns {A B} (m : M A) (k : A -> M B) :
  fst m <> Diverge -> (forall a, fst m = Ret a -> fst (k a) <> Diverge) ->
  fst (bind m k) <> Diverge.
Proof.
  intros Hm Hk. rewrite fst_bind. destruct (fst m) as [a | e |];
    [now apply Hk | discriminate | now contradiction Hm].
Qed.

Lemma lift_returns {A} (r : res A) : fst (lift r) <> Diverge.
Proof. destruct r; discriminate. Qed.

Lemma lift_inv {A} (r : res A) a t : lift r = (Ret a, t) -> r = Ok a /\ t = [].
Proof. destruct r; simpl; [intros [= -> <-]; auto | discriminate]. Qed.

Lemma surjective_M {A} (m : M A) : m = (fst m, snd m).
Proof. destruct m; reflexivity. Qed.

(** ** API client *)

Section ClientProperties.

Variable server : string -> http_outcome.

Lemma make_api_request_trace endpoint :
  snd (make_api_request server endpoint) = [api_url endpoint].
Proof.
  unfold make_api_request. destruct (server _) as [| status body]; [reflexivity |].
  destruct (status =? 200); [destruct body|]; reflexivity.
Qed.

Lemma make_api_request_eq endpoint :
  make_api_request server endpoint
  = (fst (make_api_request server endpoint), [api_url endpoint]).
Proof. rewrite <- make_api_request_trace. apply surjective_M. Qed.

(** C5, as amended: a response whose status is not 200 (in particular every
    non-2xx status) makes [make_api_request] return [None] without raising;
    a transport failure is not turned into [None]: the exception of the HTTP
    call is raised to the caller. *)
Theorem make_api_request_failure endpoint :
  (forall status_code body,
      server (api_url endpoint) = Response status_code body ->
      status_code <> 200 ->
      make_api_request server endpoint = (Ret JNull, [api_url endpoint]))
  /\ (server (api_url endpoint) = TransportError ->
      make_api_request server endpoint = (Raise ConnectionError, [api_url endpoint])).
Proof.
  unfold make_api_request. split.
  - intros status body -> Hne.
    destruct (Z.eqb_spec status 200); [contradiction | reflexivity].
  - intros ->. reflexivity.
Qed.

End ClientProperties.

(** A request always comes back, with a value or with an exception. *)
Lemma request_returns server endpoint :
  fst (make_api_request server endpoint) <> Diverge.
Proof.
  unfold make_api_request. destruct (server _) as [| status body]; [discriminate |].
  destruct (status =? 200); [destruct body|]; discriminate.
Qed.

(** C5, witness: a 404 answer gives [None]; a transport failure raises. *)
Lemma make_api_request_failure_witness :
  make_api_request (Sample.serve []) "projects/all"
  = (Ret JNull, [api_url "projects/all"])
  /\ make_api_request Sample.unreachable "projects/all"
     = (Raise ConnectionError, [api_url "projects/all"]).
Proof.
  split.
  - apply (proj1 (make_api_request_failure (Sample.serve []) "projects/all") 404 None).
    + reflexivity.
    + lia.
  - apply (proj2 (make_api_request_failure Sample.unreachable "projects/all")).
    reflexivity.
Defined.

(** C5, counterexample: on a transport failure [make_api_request] does not
    return [None]; it raises. *)
Lemma make_api_request_transport_failure_raises :
  Sample.unreachable (api_url "projects/all") = TransportError
  /\ fst (make_api_request Sample.unreachable "projects/all") = Raise ConnectionError
  /\ fst (make_api_request Sample.unreachable "projects/all") <> Ret JNull.
Proof. repeat split. discriminate. Qed.

(** ** Paginator *)

Section PaginatorProperties.

Variable server : string -> http_outcome.
Variable py_repr : json -> string.
Variables project_id environment_id : json.

Local Abbreviation response := (page_response server py_repr project_id environment_id).
Local Abbreviation request := (page_request py_repr project_id environment_id).
Local Abbreviation loop := (fun fuel => pagination_loop server py_repr fuel project_id environment_id).

Lemma truthy_JArr items : truthy (JArr items) = true <-> items <> [].
Proof. destruct items; simpl; split; congruence. Qed.

(** One turn of the loop, once the client has answered. *)
Lemma pagination_loop_turn fuel k acc :
  loop (S fuel) (take * Z.of_nat k) acc
  = match response k with
    | Ret result =>
      let rest :=
        if negb (truthy result) then ret acc else
        items <- lift (subscript result "Items") ;;
        if negb (truthy items) then ret acc else
        items_count <- lift (py_len items) ;;
        new_items <- lift (py_iter items) ;;
        if items_count <? take then ret (acc ++ new_items)%list
        else loop fuel (take * Z.of_nat (S k)) (acc ++ new_items)%list in
      (fst rest, request k :: snd rest)
    | Raise e => (Raise e, [request k])
    | Diverge => (Diverge, [request k])
    end.
Proof.
  cbn [pagination_loop]. rewrite make_api_request_eq. fold (response k). fold (request k).
  replace (take * Z.of_nat k + take) with (take * Z.of_nat (S k)) by (unfold take; lia).
  destruct (response k) as [result | e |]; try reflexivity.
  cbn [bind]. match goal with |- (let (o, t2) := ?r in _) = _ => destruct r end.
  reflexivity.
Qed.

Lemma pagination_loop_pages pages : forall k acc fuel last,
  (forall i items, nth_error pages i = Some items -> full_page (response (k + i)) items) ->
  last_page (response (k + List.length pages)) last ->
  (List.length pages < fuel)%nat ->
  loop fuel (take * Z.of_nat k) acc
  = (Ret (acc ++ List.concat pages ++ last)%list, map request (seq k (S (List.length pages)))).
Proof.
  induction pages as [| page pages IH]; intros k acc fuel last Hfull Hlast Hfuel;
    destruct fuel as [| fuel]; try lia; rewrite pagination_loop_turn.
  - cbn [List.length] in Hlast. rewrite Nat.add_0_r in Hlast.
    destruct Hlast as [(result & -> & Hf & ->) | [(result & v & -> & Ht & Hi & Hv & ->)
                                               | (result & -> & Ht & Hi & Hne & Hlt)]].
    + cbn zeta. rewrite Hf. cbn. now rewrite app_nil_r.
    + cbn zeta. rewrite Ht, Hi. cbn [negb bind lift ret]. rewrite Hv. cbn.
      now rewrite app_nil_r.
    + cbn zeta. rewrite Ht, Hi.
      destruct last as [| d last]; [congruence |].
      apply Z.ltb_lt in Hlt.
      cbn [negb bind lift ret truthy py_len py_iter fst snd app]. rewrite Hlt.
      cbn [ret fst snd List.concat List.length seq map app]. reflexivity.
  - destruct (Hfull O page eq_refl) as (result & Hr & Ht & Hi & Hlen).
    rewrite Nat.add_0_r in Hr. rewrite Hr. cbn zeta. rewrite Ht, Hi.
    assert (Hpage : page <> []).
    { intros ->. cbn in Hlen. unfold take in Hlen. lia. }
    destruct page as [| d page]; [congruence |].
    apply Z.ltb_ge in Hlen.
    cbn [negb bind lift ret truthy py_len py_iter fst snd app]. rewrite Hlen.
    rewrite (IH (S k) (acc ++ d :: page)%list fuel last).
    + cbn [fst snd List.concat List.length seq map app]. now rewrite <- !app_assoc.
    + intros i items Hi'. replace (S k + i)%nat with (k + S i)%nat by lia.
      apply Hfull. exact Hi'.
    + replace (S k + List.length pages)%nat
        with (k + List.length ((d :: page) :: pages))%nat by (cbn; lia).
      exact Hlast.
    + cbn in Hfuel. lia.
Qed.

End PaginatorProperties.

(** With data that never ends, every page full, the loop has no last turn:
    the hypothesis of a last page below cannot be dropped. *)
Remark pagination_loop_endless server py_repr project_id environment_id :
  (forall i, exists items,
      full_page (page_response server py_repr project_id environment_id i) items) ->
  forall fuel k acc,
    fst (pagination_loop server py_repr fuel project_id environment_id
           (take * Z.of_nat k) acc) = Diverge.
Proof.
  intros Hfull fuel. induction fuel as [| fuel IH]; intros k acc; [reflexivity |].
  rewrite pagination_loop_turn.
  destruct (Hfull k) as (items & result & -> & Ht & Hi & Hlen).
  cbn zeta. rewrite Ht, Hi.
  destruct items as [| d items]; [cbn in Hlen; unfold take in Hlen; lia |].
  apply Z.ltb_ge in Hlen.
  cbn [negb bind lift ret truthy py_len py_iter fst snd app]. rewrite Hlen.
  specialize (IH (S k) (acc ++ d :: items)%list).
  destruct (pagination_loop _ _ _ _ _ _ _). exact IH.
Qed.

Lemma sample_page_full srv k n :
  page_response srv Sample.repr (JStr "P") (JStr "E") k
  = Ret (JObj [("Items", JArr (repeat (Sample.deployment "1" Sample.new_year) n))]) ->
  (30 <= n)%nat ->
  full_page (page_response srv Sample.repr (JStr "P") (JStr "E") k)
            (repeat (Sample.deployment "1" Sample.new_year) n).
Proof.
  intros -> Hn. eexists. repeat split.
  rewrite repeat_length. unfold take. lia.
Qed.

(** C4: the paginator terminates at the first page that is short, empty or
    answered with [None], and returns the pages fetched until then, in order,
    one request per page: when pages [0 .. n-1] are full and page [n] ends the
    data, any fuel above [n] gives the concatenation of the pages after
    exactly [n + 1] requests.  With pages of 30, 30 and 17 records this is 3
    requests and 77 records; with pages of 30, 30, 30 and 0 records, 4
    requests. *)
Theorem fetch_deployments_with_pagination_pages :
  (forall server py_repr project_id environment_id pages last fuel,
      (forall i items,
          nth_error pages i = Some items ->
          full_page (page_response server py_repr project_id environment_id i) items) ->
      last_page (page_response server py_repr project_id environment_id (List.length pages))
                last ->
      (List.length pages < fuel)%nat ->
      fetch_deployments_with_pagination server py_repr fuel project_id environment_id
      = (Ret (List.concat pages ++ last)%list,
         map (page_request py_repr project_id environment_id)
             (seq O (S (List.length pages)))))
  /\ (forall fuel, (3 <= fuel)%nat ->
      exists records requests,
        fetch_deployments_with_pagination Sample.pages_30_30_17 Sample.repr fuel
          (JStr "P") (JStr "E") = (Ret records, requests)
        /\ List.length requests = 3%nat /\ List.length records = 77%nat)
  /\ (forall fuel, (4 <= fuel)%nat ->
      exists records requests,
        fetch_deployments_with_pagination Sample.pages_30_30_30_0 Sample.repr fuel
          (JStr "P") (JStr "E") = (Ret records, requests)
        /\ List.length requests = 4%nat).
Proof.
  assert (General : forall server py_repr project_id environment_id pages last fuel,
    (forall i items,
        nth_error pages i = Some items ->
        full_page (page_response server py_repr project_id environment_id i) items) ->
    last_page (page_response server py_repr project_id environment_id (List.length pages))
              last ->
    (List.length pages < fuel)%nat ->
    fetch_deployments_with_pagination server py_repr fuel project_id environment_id
    = (Ret (List.concat pages ++ last)%list,
       map (page_request py_repr project_id environment_id)
           (seq O (S (List.length pages))))).
  { intros server py_repr p e pages last fuel Hfull Hlast Hfuel.
    unfold fetch_deployments_with_pagination.
    change 0 with (take * Z.of_nat O).
    rewrite (pagination_loop_pages server py_repr p e pages O [] fuel last); auto. }
  split; [exact General | split].
  - intros fuel Hfuel.
    pose (d := Sample.deployment "1" Sample.new_year).
    do 2 eexists. split.
    + apply (General _ _ _ _ [repeat d 30; repeat d 30] (repeat d 17)).
      * intros [| [| i]] items; cbn [nth_error]; try (destruct i; discriminate);
          intros E; replace items with (repeat d 30) by congruence;
          apply (sample_page_full _ _ 30); (reflexivity || lia).
      * right; right. eexists. repeat split; try discriminate; try (unfold take; cbn; lia).
      * cbn. lia.
    + split; reflexivity.
  - intros fuel Hfuel.
    pose (d := Sample.deployment "1" Sample.new_year).
    do 2 eexists. split.
    + apply (General _ _ _ _ [repeat d 30; repeat d 30; repeat d 30] []).
      * intros [| [| [| i]]] items; cbn [nth_error]; try (destruct i; discriminate);
          intros E; replace items with (repeat d 30) by congruence;
          apply (sample_page_full _ _ 30); (reflexivity || lia).
      * right; left. do 2 eexists. repeat split.
      * cbn. lia.
    + reflexivity.
Qed.

(** C4, witness: pages of 30, 30 and 17 records, read with fuel 5. *)
Lemma fetch_deployments_with_pagination_pages_witness :
  fetch_deployments_with_pagination Sample.pages_30_30_17 Sample.repr 5
    (JStr "P") (JStr "E")
  = (Ret (repeat (Sample.deployment "1" Sample.new_year) 77),
     [Sample.page_url "P" "E" "0"; Sample.page_url "P" "E" "30";
      Sample.page_url "P" "E" "60"]).
Proof.
  apply (proj1 fetch_deployments_with_pagination_pages
           Sample.pages_30_30_17 Sample.repr (JStr "P") (JStr "E")
           [repeat (Sample.deployment "1" Sample.new_year) 30;
            repeat (Sample.deployment "1" Sample.new_year) 30]
           (repeat (Sample.deployment "1" Sample.new_year) 17) 5%nat).
  - intros [| [| i]] items; cbn [nth_error]; try (destruct i; discriminate);
      intros E;
      replace items with (repeat (Sample.deployment "1" Sample.new_year) 30) by congruence;
      apply (sample_page_full _ _ 30); (reflexivity || lia).
  - right; right. eexists. repeat split; try discriminate; try (unfold take; cbn; lia).
  - cbn. lia.
Defined.

(** ** Deployment resolver *)

Lemma fst_lift {A} (r : res A) :
  fst (lift r) = match r with Ok a => Ret a | Err e => Raise e end.
Proof. destruct r; reflexivity. Qed.

Lemma fst_lift_inv {A} (r : res A) a : fst (lift r) = Ret a -> r = Ok a.
Proof. destruct r; simpl; congruence. Qed.

Lemma fst_try_except {A} (m : M A) (v : A) :
  fst (try_except m (fun _ => ret v))
  = match fst m with Raise _ => Ret v | o => o end.
Proof. destruct m as [[a | e |] t]; reflexivity. Qed.

Lemma try_except_ret {A} (m : M A) h a t : m = (Ret a, t) -> try_except m h = (Ret a, t).
Proof. intros ->. reflexivity. Qed.

Lemma eq_str_true v s : eq_str v s = true <-> v = JStr s.
Proof.
  destruct v; simpl; try (split; congruence).
  rewrite String.eqb_eq. split; congruence.
Qed.

Lemma assoc_dict_set_other d k k' v :
  k <> k' -> assoc k (dict_set d k' v) = assoc k d.
Proof.
  intros Hne. induction d as [| [k0 v0] d IH]; simpl.
  - destruct (String.eqb_spec k k'); congruence.
  - destruct (String.eqb_spec k' k0) as [-> |]; simpl.
    + destruct (String.eqb_spec k k0); congruence.
    + destruct (String.eqb_spec k k0); auto.
Qed.

Section ResolverProperties.

Variable server : string -> http_outcome.
Variable py_repr : json -> string.
Variable la_utcoffset : Z -> Z.

Local Abbreviation request := (make_api_request server).
Local Abbreviation scan := (last_successful_loop server py_repr la_utcoffset).
Local Abbreviation task_of' := (task_of server py_repr).
Local Abbreviation release_of' := (release_of server py_repr).
Local Abbreviation date_of' := (date_of la_utcoffset).
Local Abbreviation version_of' := (version_of server py_repr).

Lemma request_ret endpoint v :
  fst (request endpoint) = Ret v -> request endpoint = (Ret v, [api_url endpoint]).
Proof. intros H. rewrite make_api_request_eq, H. reflexivity. Qed.

(** A record the scan passes over leaves the result to the records after it. *)
Lemma scan_skip d rest output :
  not_successful server py_repr d ->
  scan (d :: rest) output
  = (fst (scan rest output), (task_request py_repr d ++ snd (scan rest output))%list).
Proof.
  intros (task & (task_id & Hid & Htask) & Hstate).
  cbn [last_successful_loop]. unfold task_request. rewrite Hid.
  rewrite (bind_lift_ok _ _ _ eq_refl).
  apply request_ret in Htask. unfold task_endpoint in Htask. rewrite Htask. cbn [bind].
  destruct Hstate as [Hfalse | (state & [Htrue Hstate] & Hneq)].
  - rewrite Hfalse. cbn [negb]. destruct (scan rest output). reflexivity.
  - rewrite Htrue. cbn [negb]. rewrite (bind_lift_ok _ _ _ Hstate), Hneq. cbn [negb].
    destruct (scan rest output). reflexivity.
Qed.

(** A successful record ends the scan: its version and date are stored and
    no later record is asked for. *)
Lemma scan_hit d rest output version date :
  successful server py_repr d -> version_of' d version -> date_of' d date ->
  scan (d :: rest) output
  = (Ret (dict_set (dict_set output "last_successful_version" version)
                   "last_successful_date" (JStr date)),
     (task_request py_repr d ++ release_request py_repr d)%list).
Proof.
  intros (task & (task_id & Hid & Htask) & Htrue & Hstate)
         (release & (release_id & Hrid & Hrelease) & Hversion)
         (created & Hcreated & Hdate).
  cbn [last_successful_loop]. unfold task_request, release_request. rewrite Hid, Hrid.
  rewrite (bind_lift_ok _ _ _ eq_refl).
  apply request_ret in Htask, Hrelease.
  unfold task_endpoint in Htask. unfold release_endpoint in Hrelease.
  rewrite Htask. cbn [bind]. rewrite Htrue. cbn [negb].
  rewrite (bind_lift_ok _ _ _ Hstate). cbn [eq_str]. rewrite String.eqb_refl. cbn [negb].
  rewrite (bind_lift_ok _ _ _ eq_refl), Hrelease. cbn [bind].
  rewrite (bind_lift_ok _ _ _ Hversion), (bind_lift_ok _ _ _ Hcreated),
    (bind_lift_ok _ _ _ Hdate).
  reflexivity.
Qed.

Lemma scan_none older output :
  Forall (not_successful server py_repr) older ->
  scan older output = (Ret output, flat_map (task_request py_repr) older).
Proof.
  induction 1 as [| d older Hd _ IH]; [reflexivity |].
  rewrite scan_skip, IH by assumption. reflexivity.
Qed.

Lemma scan_first before d after output version date :
  Forall (not_successful server py_repr) before ->
  successful server py_repr d -> version_of' d version -> date_of' d date ->
  scan (before ++ d :: after) output
  = (Ret (dict_set (dict_set output "last_successful_version" version)
                   "last_successful_date" (JStr date)),
     (flat_map (task_request py_repr) before
      ++ task_request py_repr d ++ release_request py_repr d)%list).
Proof.
  intros Hbefore Hd Hv Hdate. induction Hbefore as [| d0 before Hd0 _ IH].
  - apply scan_hit; assumption.
  - cbn [app flat_map]. rewrite scan_skip, IH by assumption.
    cbn [fst snd]. now rewrite <- app_assoc.
Qed.

(** Whatever the scan returns, it is the report it was given or that report
    with the two last-successful fields set. *)
Lemma scan_result older : forall output output',
  fst (scan older output) = Ret output' ->
  output' = output
  \/ exists version date,
       output' = dict_set (dict_set output "last_successful_version" version)
                          "last_successful_date" (JStr date).
Proof.
  induction older as [| d older IH]; intros output output' H.
  - left. cbn in H. congruence.
  - cbn [last_successful_loop] in H.
    apply fst_bind_inv in H as (task_id & _ & H).
    apply fst_bind_inv in H as (task & _ & H).
    destruct (truthy task); cbn [negb] in H; [| now apply IH].
    apply fst_bind_inv in H as (state & _ & H).
    destruct (eq_str state "Success"); cbn [negb] in H; [| now apply IH].
    apply fst_bind_inv in H as (release_id & _ & H).
    apply fst_bind_inv in H as (release & _ & H).
    apply fst_bind_inv in H as (version & _ & H).
    apply fst_bind_inv in H as (created & _ & H).
    apply fst_bind_inv in H as (date & _ & H).
    right. exists version, date. cbn in H. congruence.
Qed.

Lemma scan_keeps_failed older output output' :
  fst (scan older output) = Ret output' -> assoc "failed" output' = assoc "failed" output.
Proof.
  intros H. apply scan_result in H as [-> | (version & date & ->)]; [reflexivity |].
  rewrite !assoc_dict_set_other by discriminate. reflexivity.
Qed.

(** What the scan returned tells which records it went through: all of them,
    none of them successful, or the records up to the first successful one,
    whose version and date it stored. *)
Lemma scan_inv older : forall output output',
  fst (scan older output) = Ret output' ->
  (Forall (not_successful server py_repr) older /\ output' = output)
  \/ exists before r after version date,
       older = (before ++ r :: after)%list
       /\ Forall (not_successful server py_repr) before
       /\ successful server py_repr r
       /\ version_of' r version /\ date_of' r date
       /\ output' = dict_set (dict_set output "last_successful_version" version)
                             "last_successful_date" (JStr date).
Proof.
  induction older as [| d older IH]; intros output output' H.
  - left. cbn in H. split; [constructor | congruence].
  - cbn [last_successful_loop] in H.
    apply fst_bind_inv in H as (task_id & Htid & H). apply fst_lift_inv in Htid.
    apply fst_bind_inv in H as (task & Htask & H).
    assert (Hof : task_of' d task) by (exists task_id; split; assumption).
    assert (Hskip : not_successful server py_repr d ->
                    fst (scan older output) = Ret output' ->
                    (Forall (not_successful server py_repr) (d :: older) /\ output' = output)
                    \/ exists before r after version date,
                         (d :: older) = (before ++ r :: after)%list
                         /\ Forall (not_successful server py_repr) before
                         /\ successful server py_repr r
                         /\ version_of' r version /\ date_of' r date
                         /\ output' = dict_set (dict_set output "last_successful_version"
                                                           version)
                                               "last_successful_date" (JStr date)).
    { intros Hd Hrest.
      destruct (IH _ _ Hrest)
        as [[Hall ->] | (before & r & after & v & dt & -> & Hb & Hr & Hv & Hdt & ->)].
      - left. split; [constructor; assumption | reflexivity].
      - right. exists (d :: before), r, after, v, dt.
        split; [reflexivity |]. split; [constructor; assumption |]. auto. }
    destruct (truthy task) eqn:Htrue; cbn [negb] in H.
    2: { apply Hskip; [| exact H]. exists task. split; [exact Hof | now left]. }
    apply fst_bind_inv in H as (state & Hstate & H). apply fst_lift_inv in Hstate.
    destruct (eq_str state "Success") eqn:E; cbn [negb] in H.
    2: { apply Hskip; [| exact H]. exists task. split; [exact Hof |].
         right. exists state. split; [split; assumption | exact E]. }
    apply eq_str_true in E. subst state.
    apply fst_bind_inv in H as (release_id & Hrid & H). apply fst_lift_inv in Hrid.
    apply fst_bind_inv in H as (release & Hrelease & H).
    apply fst_bind_inv in H as (version & Hversion & H). apply fst_lift_inv in Hversion.
    apply fst_bind_inv in H as (created & Hcreated & H). apply fst_lift_inv in Hcreated.
    apply fst_bind_inv in H as (date & Hdate & H). apply fst_lift_inv in Hdate.
    right. exists [], d, older, version, date.
    split; [reflexivity |]. split; [constructor |].
    split; [exists task; split; [exact Hof | split; assumption] |].
    split; [exists release; split; [exists release_id; split; assumption | assumption] |].
    split; [exists created; split; assumption |].
    cbn in H. congruence.
Qed.

(** The scan always comes back: with a report or with an exception. *)
Lemma scan_returns older : forall output, fst (scan older output) <> Diverge.
Proof.
  induction older as [| d older IH]; intros output; [discriminate |].
  cbn [last_successful_loop].
  apply bind_returns; [apply lift_returns | intros task_id _].
  apply bind_returns; [apply request_returns | intros task _].
  destruct (truthy task); cbn [negb]; [| apply IH].
  apply bind_returns; [apply lift_returns | intros state _].
  destruct (eq_str state "Success"); cbn [negb]; [| apply IH].
  apply bind_returns; [apply lift_returns | intros release_id _].
  apply bind_returns; [apply request_returns | intros release _].
  apply bind_returns; [apply lift_returns | intros version _].
  apply bind_returns; [apply lift_returns | intros created _].
  apply bind_returns; [apply lift_returns | intros date _].
  discriminate.
Qed.

End ResolverProperties.

Lemma subscript_ok_dict v k x :
  subscript v k = Ok x ->
  truthy v = true /\ forall k' default, exists y, dict_get v k' default = Ok y.
Proof.
  destruct v as [| | | | | d]; simpl; try discriminate.
  destruct d as [| kv d]; [discriminate |]. intros _. split; [reflexivity |].
  intros k' default. destruct (assoc k' (kv :: d)); eauto.
Qed.

Lemma subscript_release_notes release version :
  subscript release "Version" = Ok version ->
  dict_get release "ReleaseNotes" JNull = Ok (release_notes_of release).
Proof.
  intros H. unfold release_notes_of.
  destruct (proj2 (subscript_ok_dict _ _ _ H) "ReleaseNotes" JNull) as (y & ->).
  reflexivity.
Qed.

Section ResolverTheorems.

Variable server : string -> http_outcome.
Variable py_repr : json -> string.
Variable la_utcoffset : Z -> Z.

Local Abbreviation request := (make_api_request server).
Local Abbreviation scan := (last_successful_loop server py_repr la_utcoffset).
Local Abbreviation fetch := (fetch_deployments_with_pagination server py_repr).
Local Abbreviation body := (process_deployment_body server py_repr la_utcoffset).
Local Abbreviation resolver := (process_deployment server py_repr la_utcoffset).

Local Abbreviation completed := (completed_report server py_repr la_utcoffset).

(** The resolver on a history whose latest record resolves. *)
Lemma body_latest fuel project_id environment_id d older t0 release version task state date :
  fetch fuel project_id environment_id = (Ret (d :: older), t0) ->
  release_of server py_repr d release -> subscript release "Version" = Ok version ->
  task_of server py_repr d task -> state_of task state ->
  date_of la_utcoffset d date ->
  let rest := completed state older
                (base_report version (release_notes_of release) date) in
  body fuel project_id environment_id
  = (match fst rest with
     | Ret output => Ret (Some (environment_id, output))
     | Raise e => Raise e
     | Diverge => Diverge
     end,
     (t0 ++ release_request py_repr d ++ task_request py_repr d ++ snd rest)%list).
Proof.
  intros Hfetch (release_id & Hrid & Hrelease) Hversion (task_id & Htid & Htask)
         [Htrue Hstate] (created & Hcreated & Hdate) rest.
  unfold process_deployment_body. rewrite Hfetch, bind_pair. cbn beta iota.
  unfold release_request, task_request. rewrite Hrid, Htid.
  rewrite (bind_lift_ok _ _ _ eq_refl).
  apply request_ret in Hrelease, Htask.
  unfold release_endpoint in Hrelease. unfold task_endpoint in Htask.
  rewrite Hrelease, bind_pair, (bind_lift_ok _ _ _ eq_refl), Htask, bind_pair.
  rewrite (proj1 (subscript_ok_dict _ _ _ Hversion)), Htrue. cbn [negb orb].
  rewrite (bind_lift_ok _ _ _ Hstate), (bind_lift_ok _ _ _ Hversion),
    (bind_lift_ok _ _ _ (subscript_release_notes _ _ Hversion)),
    (bind_lift_ok _ _ _ Hcreated), (bind_lift_ok _ _ _ Hdate).
  subst rest. unfold completed_report, base_report. rewrite fst_bind, snd_bind.
  destruct (eq_str state "Failed");
    [destruct (scan older _) as [[output | e |] t] |];
    cbn [fst snd ret app]; now rewrite ?app_nil_r.
Qed.

(** Every report the resolver returns comes from a non-empty history whose
    latest record resolved. *)
Lemma body_report_inv fuel project_id environment_id env_id output :
  fst (body fuel project_id environment_id) = Ret (Some (env_id, output)) ->
  exists d older release version task state date,
    fst (fetch fuel project_id environment_id) = Ret (d :: older)
    /\ release_of server py_repr d release /\ subscript release "Version" = Ok version
    /\ task_of server py_repr d task /\ state_of task state
    /\ date_of la_utcoffset d date
    /\ env_id = environment_id
    /\ fst (completed state older
              (base_report version (release_notes_of release) date)) = Ret output.
Proof.
  intros H. unfold process_deployment_body in H.
  apply fst_bind_inv in H as (deployments & Hfetch & H).
  destruct deployments as [| d older]; [discriminate |].
  apply fst_bind_inv in H as (release_id & Hrid & H). apply fst_lift_inv in Hrid.
  apply fst_bind_inv in H as (release & Hrelease & H).
  apply fst_bind_inv in H as (task_id & Htid & H). apply fst_lift_inv in Htid.
  apply fst_bind_inv in H as (task & Htask & H).
  destruct (truthy release) eqn:Hr; [| discriminate].
  destruct (truthy task) eqn:Ht; [| discriminate].
  cbn [negb orb] in H.
  apply fst_bind_inv in H as (state & Hstate & H). apply fst_lift_inv in Hstate.
  apply fst_bind_inv in H as (version & Hversion & H). apply fst_lift_inv in Hversion.
  apply fst_bind_inv in H as (notes & Hnotes & H). apply fst_lift_inv in Hnotes.
  apply fst_bind_inv in H as (created & Hcreated & H). apply fst_lift_inv in Hcreated.
  apply fst_bind_inv in H as (date & Hdate & H). apply fst_lift_inv in Hdate.
  apply fst_bind_inv in H as (output0 & Hrest & H).
  cbn in H. injection H as <- <-.
  exists d, older, release, version, task, state, date.
  repeat split; try assumption.
  - exists release_id. auto.
  - exists task_id. auto.
  - exists created. auto.
  - unfold completed_report, base_report, release_notes_of. rewrite Hnotes. exact Hrest.
Qed.

Lemma resolver_report_inv fuel project_id environment_id report :
  fst (resolver fuel project_id environment_id) = Ret (Some report) ->
  fst (body fuel project_id environment_id) = Ret (Some report).
Proof.
  unfold process_deployment. rewrite fst_try_except.
  destruct (fst (body fuel project_id environment_id)); congruence.
Qed.

Lemma task_of_unique d task task' :
  task_of server py_repr d task -> task_of server py_repr d task' -> task = task'.
Proof. intros (i & Hi & H) (i' & Hi' & H'). congruence. Qed.

(** Once the paginator has returned, the body of the resolver comes back. *)
Lemma body_returns fuel project_id environment_id deployments :
  fst (fetch fuel project_id environment_id) = Ret deployments ->
  fst (body fuel project_id environment_id) <> Diverge.
Proof.
  intros Hfetch. unfold process_deployment_body.
  apply bind_returns; [congruence | intros l _].
  destruct l as [| d older]; [discriminate |].
  apply bind_returns; [apply lift_returns | intros release_id _].
  apply bind_returns; [apply request_returns | intros release _].
  apply bind_returns; [apply lift_returns | intros task_id _].
  apply bind_returns; [apply request_returns | intros task _].
  destruct (negb (truthy release) || negb (truthy task)); [discriminate |].
  apply bind_returns; [apply lift_returns | intros state _].
  apply bind_returns; [apply lift_returns | intros version _].
  apply bind_returns; [apply lift_returns | intros release_notes _].
  apply bind_returns; [apply lift_returns | intros created _].
  apply bind_returns; [apply lift_returns | intros deployment_date _].
  apply bind_returns; [| discriminate].
  destruct (eq_str state "Failed"); [apply scan_returns | discriminate].
Qed.

(** The resolver comes back whenever the paginator does: with [None] or with
    a report under the environment identifier it was given. *)
Lemma resolver_returns fuel project_id environment_id deployments :
  fst (fetch fuel project_id environment_id) = Ret deployments ->
  fst (resolver fuel project_id environment_id) = Ret None
  \/ exists output,
       fst (resolver fuel project_id environment_id) = Ret (Some (environment_id, output)).
Proof.
  intros Hfetch. pose proof (body_returns _ _ _ _ Hfetch) as Hback.
  pose proof (body_report_inv fuel project_id environment_id) as Hinv.
  unfold process_deployment. rewrite fst_try_except.
  destruct (fst (body fuel project_id environment_id)) as [[[env_id output] |] | e |].
  - right. exists output.
    destruct (Hinv env_id output eq_refl)
      as (d & older & release & version & task & state & date & H).
    replace environment_id with env_id by tauto. reflexivity.
  - now left.
  - now left.
  - now contradiction Hback.
Qed.

(** C1: the resolver returns a report only for a pair with a deployment
    history, and for such a pair exactly when its records resolve.  (i) An
    empty paginated list gives [None].  (ii) With a non-empty list the
    resolver returns [report] if and only if the release of the latest record
    is fetched with a [Version], its task is fetched with a state that can be
    read, its [Created] text converts, and [report] holds, under the
    environment identifier given, the three fields of that record, completed
    when the state is Failed by [failed] alone if the scan passes over every
    older record, or by [failed] and the version and date of the first
    successful older record.  (iii) On a non-empty list the resolver always
    returns: [None] or a report.  (iv) When it returns a report it has asked,
    right after the pages, for the release and then the task of the latest
    record.  (v) A report is only ever returned for a non-empty list. *)
Theorem process_deployment_report_iff_deployments fuel project_id environment_id :
  (forall requests,
      fetch fuel project_id environment_id = (Ret [], requests) ->
      resolver fuel project_id environment_id = (Ret None, requests))
  /\ (forall d older requests report,
      fetch fuel project_id environment_id = (Ret (d :: older), requests) ->
      fst (resolver fuel project_id environment_id) = Ret (Some report)
      <-> exists release version task state date output,
            release_of server py_repr d release
            /\ subscript release "Version" = Ok version
            /\ task_of server py_repr d task /\ state_of task state
            /\ date_of la_utcoffset d date
            /\ report = (environment_id, output)
            /\ if eq_str state "Failed"
               then (Forall (not_successful server py_repr) older
                     /\ output = [("version", version);
                                  ("release_notes", release_notes_of release);
                                  ("deployment_date", JStr date);
                                  ("failed", JBool true)])
                    \/ (exists before r after version_r date_r,
                           older = (before ++ r :: after)%list
                           /\ Forall (not_successful server py_repr) before
                           /\ successful server py_repr r
                           /\ version_of server py_repr r version_r
                           /\ date_of la_utcoffset r date_r
                           /\ output = [("version", version);
                                        ("release_notes", release_notes_of release);
                                        ("deployment_date", JStr date);
                                        ("failed", JBool true);
                                        ("last_successful_version", version_r);
                                        ("last_successful_date", JStr date_r)])
               else output = [("version", version);
                              ("release_notes", release_notes_of release);
                              ("deployment_date", JStr date)])
  /\ (forall d older requests,
      fetch fuel project_id environment_id = (Ret (d :: older), requests) ->
      fst (resolver fuel project_id environment_id) = Ret None
      \/ exists output,
           fst (resolver fuel project_id environment_id)
           = Ret (Some (environment_id, output)))
  /\ (forall d older requests report,
      fetch fuel project_id environment_id = (Ret (d :: older), requests) ->
      fst (resolver fuel project_id environment_id) = Ret (Some report) ->
      exists release_url task_url rest,
        release_request py_repr d = [release_url]
        /\ task_request py_repr d = [task_url]
        /\ snd (resolver fuel project_id environment_id)
           = (requests ++ release_url :: task_url :: rest)%list)
  /\ (forall report,
      fst (resolver fuel project_id environment_id) = Ret (Some report) ->
      exists d older, fst (fetch fuel project_id environment_id) = Ret (d :: older)).
Proof.
  split; [| split; [| split; [| split]]].
  - intros requests Hfetch. unfold process_deployment, process_deployment_body.
    rewrite Hfetch. cbn. now rewrite app_nil_r.
  - intros d older requests report Hfetch. split.
    + intros H. destruct report as [env_id output].
      apply resolver_report_inv, body_report_inv in H.
      destruct H as (d' & older' & release & version & task & state & date
                     & Hfetch' & Hrelease & Hversion & Htask & Hstate & Hdate
                     & -> & Hrest).
      rewrite Hfetch in Hfetch'. injection Hfetch' as <- <-.
      exists release, version, task, state, date, output.
      repeat (split; [assumption || reflexivity |]).
      unfold completed_report in Hrest. destruct (eq_str state "Failed").
      * apply scan_inv in Hrest
          as [[Hall ->] | (before & r & after & v & dt & -> & Hb & Hr & Hv & Hdt & ->)].
        -- left. split; [assumption | reflexivity].
        -- right. exists before, r, after, v, dt.
           repeat (split; [assumption || reflexivity |]). reflexivity.
      * cbn in Hrest. injection Hrest as <-. reflexivity.
    + intros (release & version & task & state & date & output
              & Hrelease & Hversion & Htask & Hstate & Hdate & -> & Houtput).
      pose proof (body_latest _ _ _ _ _ _ _ _ _ _ _
                    Hfetch Hrelease Hversion Htask Hstate Hdate) as Hbody.
      cbn zeta in Hbody. unfold completed_report in Hbody.
      unfold process_deployment. rewrite fst_try_except, Hbody. cbn [fst].
      destruct (eq_str state "Failed").
      * destruct Houtput
          as [[Hall ->] | (before & r & after & v & dt & -> & Hb & Hr & Hv & Hdt & ->)].
        -- rewrite (scan_none server py_repr la_utcoffset older _ Hall). reflexivity.
        -- rewrite (scan_first server py_repr la_utcoffset before r after _ v dt)
             by assumption.
           reflexivity.
      * subst output. reflexivity.
  - intros d older requests Hfetch.
    apply (resolver_returns _ _ _ (d :: older)). now rewrite Hfetch.
  - intros d older requests [env_id output] Hfetch H.
    apply resolver_report_inv in H. pose proof H as Hreport.
    apply body_report_inv in H.
    destruct H as (d' & older' & release & version & task & state & date
                   & Hfetch' & Hrelease & Hversion & Htask & Hstate & Hdate
                   & _ & Hrest).
    rewrite Hfetch in Hfetch'. injection Hfetch' as <- <-.
    pose proof (body_latest _ _ _ _ _ _ _ _ _ _ _
                  Hfetch Hrelease Hversion Htask Hstate Hdate) as Hbody.
    cbn zeta in Hbody. rewrite Hrest in Hbody.
    destruct Hrelease as (release_id & Hrid & _). destruct Htask as (task_id & Htid & _).
    unfold release_request, task_request in *. rewrite Hrid, Htid in *.
    eexists _, _, _. split; [reflexivity |]. split; [reflexivity |].
    unfold process_deployment. rewrite Hbody. reflexivity.
  - intros [env_id output] H. apply resolver_report_inv, body_report_inv in H.
    destruct H as (d & older & release & version & task & state & date & Hfetch & _).
    eauto.
Qed.

(** The [failed] entry of a report, read off the state of the latest task. *)
Lemma report_failed_entry fuel project_id environment_id env_id output :
  fst (resolver fuel project_id environment_id) = Ret (Some (env_id, output)) ->
  exists d older task state,
    fst (fetch fuel project_id environment_id) = Ret (d :: older)
    /\ task_of server py_repr d task /\ state_of task state
    /\ assoc "failed" output
       = (if eq_str state "Failed" then Some (JBool true) else None).
Proof.
  intros H. apply resolver_report_inv, body_report_inv in H.
  destruct H as (d & older & release & version & task & state & date
                 & Hfetch & _ & _ & Htask & Hstate & _ & _ & Hrest).
  exists d, older, task, state.
  split; [assumption | split; [assumption | split; [assumption |]]].
  unfold completed_report in Hrest. destruct (eq_str state "Failed").
  - apply scan_keeps_failed in Hrest. rewrite Hrest. reflexivity.
  - cbn in Hrest. injection Hrest as <-. reflexivity.
Qed.

(** C3: in every report the resolver returns, [failed] is [True] exactly when
    the task of the latest (first) record has state Failed; with any other
    state the report has no [failed] entry. *)
Theorem process_deployment_failed_flag fuel project_id environment_id env_id output :
  fst (resolver fuel project_id environment_id) = Ret (Some (env_id, output)) ->
  exists d older task state,
    fst (fetch fuel project_id environment_id) = Ret (d :: older)
    /\ task_of server py_repr d task /\ state_of task state
    /\ (assoc "failed" output = Some (JBool true) <-> state = JStr "Failed")
    /\ (state <> JStr "Failed" -> assoc "failed" output = None).
Proof.
  intros H.
  destruct (report_failed_entry _ _ _ _ _ H)
    as (d & older & task & state & Hfetch & Htask & Hstate & Hfailed).
  exists d, older, task, state.
  split; [assumption | split; [assumption | split; [assumption |]]].
  rewrite Hfailed. destruct (eq_str state "Failed") eqn:E.
  - apply eq_str_true in E. split; [tauto | congruence].
  - split; [| reflexivity].
    split; [discriminate |]. intros ->. cbn in E.
    discriminate.
Qed.

(** C6: with a non-empty history, when the release or the task of the latest
    record is fetched as [None] (or as any empty document), the resolver
    returns [None] for the pair, and it returns: it does not raise. *)
Theorem process_deployment_absent_release_or_task fuel project_id environment_id d older :
  fst (fetch fuel project_id environment_id) = Ret (d :: older) ->
  (exists release, release_of server py_repr d release /\ truthy release = false)
  \/ (exists task, task_of server py_repr d task /\ truthy task = false) ->
  fst (resolver fuel project_id environment_id) = Ret None.
Proof.
  intros Hfetch Habsent. unfold process_deployment. rewrite fst_try_except.
  unfold process_deployment_body. rewrite fst_bind, Hfetch.
  destruct Habsent as [(release & (release_id & Hrid & Hrelease) & Hfalse)
                      | (task & (task_id & Htid & Htask) & Hfalse)].
  - unfold release_endpoint in Hrelease.
    rewrite fst_bind, fst_lift, Hrid, fst_bind, Hrelease, fst_bind, fst_lift.
    destruct (subscript d "TaskId") as [task_id |]; [| reflexivity].
    rewrite fst_bind.
    generalize (request_returns server ("tasks/" ++ py_str py_repr task_id)).
    destruct (fst (request ("tasks/" ++ py_str py_repr task_id)%string)) as [task | |];
      intros Hnd; try reflexivity; [| congruence].
    rewrite Hfalse. reflexivity.
  - unfold task_endpoint in Htask.
    rewrite fst_bind, fst_lift.
    destruct (subscript d "ReleaseId") as [release_id |]; [| reflexivity].
    rewrite fst_bind.
    generalize (request_returns server ("releases/" ++ py_str py_repr release_id)).
    destruct (fst (request ("releases/" ++ py_str py_repr release_id)%string))
      as [release | |]; intros Hnd; try reflexivity; [| congruence].
    rewrite fst_bind, fst_lift, Htid, fst_bind, Htask, Hfalse.
    rewrite orb_true_r. reflexivity.
Qed.

Lemma stateless_task_not_successful d task :
  task_of server py_repr d task ->
  truthy task = false
  \/ (exists fields, task = JObj fields /\ assoc "State" fields = None) ->
  not_successful server py_repr d.
Proof.
  intros Htask Hstate. exists task. split; [assumption |].
  destruct Hstate as [Hfalse | (fields & -> & Hnone)]; [now left |].
  destruct (truthy (JObj fields)) eqn:Htrue; [right | now left].
  exists (JStr "Unknown"). repeat split; [assumption |].
  cbn [dict_get]. rewrite Hnone. reflexivity.
Qed.

(** C10: a task without a [State] field has state ['Unknown'].  (i) The
    lookup with its default gives ['Unknown'].  (ii) A report whose latest
    record has such a task never carries [failed].  (iii) In the scan for the
    last successful deployment, a record whose task has no [State] field, or
    whose task was fetched as [None], is passed over: the result is the
    result of the records after it. *)
Theorem task_without_state_is_unknown :
  (forall fields,
      assoc "State" fields = None ->
      dict_get (JObj fields) "State" (JStr "Unknown") = Ok (JStr "Unknown"))
  /\ (forall fuel project_id environment_id d older fields env_id output,
      fst (fetch fuel project_id environment_id) = Ret (d :: older) ->
      task_of server py_repr d (JObj fields) ->
      assoc "State" fields = None ->
      fst (resolver fuel project_id environment_id) = Ret (Some (env_id, output)) ->
      assoc "failed" output = None)
  /\ (forall d task rest output,
      task_of server py_repr d task ->
      truthy task = false
      \/ (exists fields, task = JObj fields /\ assoc "State" fields = None) ->
      scan (d :: rest) output
      = (fst (scan rest output), (task_request py_repr d ++ snd (scan rest output))%list)).
Proof.
  split; [| split].
  - intros fields Hnone. cbn [dict_get]. rewrite Hnone. reflexivity.
  - intros fuel project_id environment_id d older fields env_id output
           Hfetch Htask Hnone H.
    apply report_failed_entry in H.
    destruct H as (d' & older' & task & state & Hfetch' & Htask' & [_ Hstate] & Hfailed).
    rewrite Hfetch in Hfetch'. injection Hfetch' as <- <-.
    rewrite <- (task_of_unique _ _ _ Htask Htask') in Hstate.
    cbn [dict_get] in Hstate. rewrite Hnone in Hstate. injection Hstate as <-.
    exact Hfailed.
  - intros d task rest output Htask Hstate.
    apply scan_skip. eapply stateless_task_not_successful; eassumption.
Qed.

(** C2: when the latest deployment of a pair failed, the last-successful
    fields come from the first record of the remaining history, in the order
    the paginator returned it, whose task has state Success, and no record
    after that one is asked for, provided the scan gets that far and the
    release of that record has a [Version] and its [Created] text converts;
    when the scan passes over every remaining record the report is returned
    without those fields.  In every other case (a task request of the scan
    raises, the release of the first successful record is not found, its
    date does not convert) the pair gets [None]: no report at all. *)
Theorem process_deployment_last_successful
    fuel project_id environment_id d older requests release version date :
  fetch fuel project_id environment_id = (Ret (d :: older), requests) ->
  release_of server py_repr d release -> subscript release "Version" = Ok version ->
  (exists task, task_of server py_repr d task /\ state_of task (JStr "Failed")) ->
  date_of la_utcoffset d date ->
  (forall before r after version_r date_r,
      older = (before ++ r :: after)%list ->
      Forall (not_successful server py_repr) before ->
      successful server py_repr r ->
      version_of server py_repr r version_r -> date_of la_utcoffset r date_r ->
      resolver fuel project_id environment_id
      = (Ret (Some (environment_id,
                    [("version", version);
                     ("release_notes", release_notes_of release);
                     ("deployment_date", JStr date);
                     ("failed", JBool true);
                     ("last_successful_version", version_r);
                     ("last_successful_date", JStr date_r)])),
         (requests ++ release_request py_repr d ++ task_request py_repr d
          ++ flat_map (task_request py_repr) before
          ++ task_request py_repr r ++ release_request py_repr r)%list))
  /\ (Forall (not_successful server py_repr) older ->
      resolver fuel project_id environment_id
      = (Ret (Some (environment_id,
                    [("version", version);
                     ("release_notes", release_notes_of release);
                     ("deployment_date", JStr date);
                     ("failed", JBool true)])),
         (requests ++ release_request py_repr d ++ task_request py_repr d
          ++ flat_map (task_request py_repr) older)%list))
  /\ (fst (resolver fuel project_id environment_id) = Ret None
      \/ (exists before r after version_r date_r,
             older = (before ++ r :: after)%list
             /\ Forall (not_successful server py_repr) before
             /\ successful server py_repr r
             /\ version_of server py_repr r version_r
             /\ date_of la_utcoffset r date_r)
      \/ Forall (not_successful server py_repr) older).
Proof.
  intros Hfetch Hrelease Hversion (task & Htask & Hstate) Hdate.
  pose proof (body_latest _ _ _ _ _ _ _ _ _ _ _ Hfetch Hrelease Hversion Htask Hstate Hdate)
    as Hbody.
  cbn zeta in Hbody. unfold completed_report in Hbody. cbn [eq_str] in Hbody.
  rewrite String.eqb_refl in Hbody.
  split; [| split].
  - intros before r after version_r date_r -> Hbefore Hr Hvr Hdr.
    rewrite (scan_first server py_repr la_utcoffset before r after _ version_r date_r)
      in Hbody by assumption.
    unfold process_deployment. rewrite Hbody. reflexivity.
  - intros Holder.
    rewrite (scan_none server py_repr la_utcoffset older _ Holder) in Hbody.
    unfold process_deployment. rewrite Hbody. reflexivity.
  - unfold process_deployment. rewrite Hbody.
    pose proof (scan_returns server py_repr la_utcoffset older
                  (dict_set (base_report version (release_notes_of release) date)
                            "failed" (JBool true))) as Hback.
    destruct (fst (scan older _)) as [output | e |] eqn:Hscan.
    + right. apply scan_inv in Hscan
        as [[Hall _] | (before & r & after & v & dt & Hsplit & Hb & Hr & Hv & Hdt & _)].
      * now right.
      * left. exists before, r, after, v, dt. auto.
    + now left.
    + now contradiction Hback.
Qed.

End ResolverTheorems.

(** ** The sample history *)

Section SampleHistory.

Local Abbreviation la := Civil.los_angeles_since_2007.
Local Abbreviation d3 := (Sample.deployment "3" Sample.new_year).
Local Abbreviation d2 := (Sample.deployment "2" Sample.in_july).
Local Abbreviation d1 := (Sample.deployment "1" Sample.in_july).

Lemma history_fetch fuel :
  fetch_deployments_with_pagination Sample.history Sample.repr (S fuel)
    Sample.project_1 Sample.environment_1
  = (Ret [d3; d2; d1], [Sample.page_url "Projects-1" "Environments-1" "0"]).
Proof. reflexivity. Qed.

Lemma history_release n created version rest :
  Sample.history (api_url ("releases/Releases-" ++ n))
  = Sample.ok (JObj (("Version", version) :: rest)) ->
  release_of Sample.history Sample.repr (Sample.deployment n created)
             (JObj (("Version", version) :: rest)).
Proof.
  intros H. exists (JStr ("Releases-" ++ n)). split; [reflexivity |].
  unfold make_api_request, release_endpoint. cbn [py_str append] in *.
  rewrite H. reflexivity.
Qed.

Lemma history_task n created task :
  Sample.history (api_url ("tasks/ServerTasks-" ++ n)) = Sample.ok task ->
  task_of Sample.history Sample.repr (Sample.deployment n created) task.
Proof.
  intros H. exists (JStr ("ServerTasks-" ++ n)). split; [reflexivity |].
  unfold make_api_request, task_endpoint. cbn [py_str append] in *.
  rewrite H. reflexivity.
Qed.

Lemma history_date n created date :
  convert_to_pdt la (JStr created) = Ok date ->
  date_of la (Sample.deployment n created) date.
Proof. intros H. exists (JStr created). split; [reflexivity | exact H]. Qed.

Lemma history_d2_not_successful : not_successful Sample.history Sample.repr d2.
Proof.
  exists (JObj [("Id", JStr "ServerTasks-2")]). split.
  - apply history_task. reflexivity.
  - right. exists (JStr "Unknown"). repeat split.
Qed.

Lemma history_d1_successful : successful Sample.history Sample.repr d1.
Proof.
  exists (JObj [("State", JStr "Success")]). split.
  - apply history_task. reflexivity.
  - split; reflexivity.
Qed.

End SampleHistory.

Section SampleWitnesses.

Local Abbreviation la := Civil.los_angeles_since_2007.
Local Abbreviation d3 := (Sample.deployment "3" Sample.new_year).
Local Abbreviation d2 := (Sample.deployment "2" Sample.in_july).
Local Abbreviation d1 := (Sample.deployment "1" Sample.in_july).
Local Abbreviation release_3 := (JObj [("Version", JStr "1.3"); ("ReleaseNotes", JStr "third")]).
Local Abbreviation first_page := [Sample.page_url "Projects-1" "Environments-1" "0"].

(** C1, witness: the sample pair has three deployments whose records
    resolve, and it gets the report made of the latest record and of the
    oldest, successful one. *)
Lemma process_deployment_report_iff_deployments_witness :
  fst (process_deployment Sample.history Sample.repr la 1
         Sample.project_1 Sample.environment_1)
  = Ret (Some (Sample.environment_1, Sample.history_report)).
Proof.
  apply (proj2 (proj1 (proj2 (process_deployment_report_iff_deployments
                                Sample.history Sample.repr la 1
                                Sample.project_1 Sample.environment_1))
                  d3 [d2; d1] first_page (Sample.environment_1, Sample.history_report)
                  (history_fetch O))).
  exists release_3, (JStr "1.3"), (JObj [("State", JStr "Failed")]), (JStr "Failed"),
    "2023-12-31 16:00:00 PDT"%string, Sample.history_report.
  split; [apply history_release; reflexivity |].
  split; [reflexivity |].
  split; [apply history_task; reflexivity |].
  split; [split; reflexivity |].
  split; [apply history_date; vm_compute; reflexivity |].
  split; [reflexivity |].
  right. exists [d2], d1, [], (JStr "1.1"), "2024-07-01 05:30:00 PDT"%string.
  split; [reflexivity |].
  split; [constructor; [exact history_d2_not_successful | constructor] |].
  split; [exact history_d1_successful |].
  split; [exists (JObj [("Version", JStr "1.1")]);
          split; [apply history_release; reflexivity | reflexivity] |].
  split; [apply history_date; vm_compute; reflexivity | reflexivity].
Defined.

(** C1, the unqualified reading fails: this pair has one deployment, its
    release and its task are both fetched, and the resolver returns [None],
    because the [Created] text of the record has no fractional seconds. *)
Lemma process_deployment_fetched_without_report :
  fetch_deployments_with_pagination Sample.history_whole_seconds Sample.repr 1
    Sample.project_1 Sample.environment_1
  = (Ret [Sample.deployment "3" Sample.whole_seconds], first_page)
  /\ release_of Sample.history_whole_seconds Sample.repr
       (Sample.deployment "3" Sample.whole_seconds) release_3
  /\ task_of Sample.history_whole_seconds Sample.repr
       (Sample.deployment "3" Sample.whole_seconds) (JObj [("State", JStr "Failed")])
  /\ process_deployment Sample.history_whole_seconds Sample.repr la 1
       Sample.project_1 Sample.environment_1
     = (Ret None,
        [Sample.page_url "Projects-1" "Environments-1" "0";
         api_url "releases/Releases-3"; api_url "tasks/ServerTasks-3"]).
Proof.
  split; [vm_compute; reflexivity |].
  split; [exists (JStr "Releases-3"); split; vm_compute; reflexivity |].
  split; [exists (JStr "ServerTasks-3"); split; vm_compute; reflexivity |].
  vm_compute. reflexivity.
Qed.

(** C2, witness: the latest deployment of the sample pair failed, the next one
    has no state, the oldest succeeded and fills the last-successful fields. *)
Lemma process_deployment_last_successful_witness :
  process_deployment Sample.history Sample.repr la 1
    Sample.project_1 Sample.environment_1
  = (Ret (Some (Sample.environment_1,
                [("version", JStr "1.3");
                 ("release_notes", JStr "third");
                 ("deployment_date", JStr "2023-12-31 16:00:00 PDT");
                 ("failed", JBool true);
                 ("last_successful_version", JStr "1.1");
                 ("last_successful_date", JStr "2024-07-01 05:30:00 PDT")])),
     [Sample.page_url "Projects-1" "Environments-1" "0";
      api_url "releases/Releases-3"; api_url "tasks/ServerTasks-3";
      api_url "tasks/ServerTasks-2"; api_url "tasks/ServerTasks-1";
      api_url "releases/Releases-1"]).
Proof.
  refine (proj1 (process_deployment_last_successful
                   Sample.history Sample.repr la 1 Sample.project_1 Sample.environment_1
                   d3 [d2; d1] first_page release_3 (JStr "1.3") "2023-12-31 16:00:00 PDT"
                   (history_fetch O) _ _ _ _)
                [d2] d1 [] (JStr "1.1") "2024-07-01 05:30:00 PDT" eq_refl _ _ _ _).
  - apply history_release. reflexivity.
  - reflexivity.
  - exists (JObj [("State", JStr "Failed")]). split.
    + apply history_task. reflexivity.
    + split; reflexivity.
  - apply history_date. vm_compute. reflexivity.
  - constructor; [exact history_d2_not_successful | constructor].
  - exact history_d1_successful.
  - exists (JObj [("Version", JStr "1.1")]). split.
    + apply history_release. reflexivity.
    + reflexivity.
  - apply history_date. vm_compute. reflexivity.
Defined.

(** C2, the unqualified reading fails: in this history the latest deployment
    failed, the next one has no state and the oldest succeeded, but the
    release of the oldest is no longer found; the last-successful fields are
    neither populated nor left unset: the pair gets [None], after the
    requests of the scan. *)
Lemma process_deployment_last_successful_release_not_found :
  fetch_deployments_with_pagination Sample.history_without_release_1 Sample.repr 1
    Sample.project_1 Sample.environment_1
  = (Ret [d3; d2; d1], first_page)
  /\ (exists task, task_of Sample.history_without_release_1 Sample.repr d3 task
                   /\ state_of task (JStr "Failed"))
  /\ not_successful Sample.history_without_release_1 Sample.repr d2
  /\ successful Sample.history_without_release_1 Sample.repr d1
  /\ process_deployment Sample.history_without_release_1 Sample.repr la 1
       Sample.project_1 Sample.environment_1
     = (Ret None,
        [Sample.page_url "Projects-1" "Environments-1" "0";
         api_url "releases/Releases-3"; api_url "tasks/ServerTasks-3";
         api_url "tasks/ServerTasks-2"; api_url "tasks/ServerTasks-1";
         api_url "releases/Releases-1"]).
Proof.
  split; [vm_compute; reflexivity |].
  split.
  { exists (JObj [("State", JStr "Failed")]). split.
    - exists (JStr "ServerTasks-3"). split; vm_compute; reflexivity.
    - split; reflexivity. }
  split.
  { exists (JObj [("Id", JStr "ServerTasks-2")]). split.
    - exists (JStr "ServerTasks-2"). split; vm_compute; reflexivity.
    - right. exists (JStr "Unknown"). split; [split; reflexivity | reflexivity]. }
  split.
  { exists (JObj [("State", JStr "Success")]). split.
    - exists (JStr "ServerTasks-1"). split; vm_compute; reflexivity.
    - split; reflexivity. }
  vm_compute. reflexivity.
Qed.

(** C3, witness: the report of the sample pair carries [failed], and the task
    of its latest deployment has state Failed. *)
Lemma process_deployment_failed_flag_witness :
  exists d older task state,
    fst (fetch_deployments_with_pagination Sample.history Sample.repr 1
           Sample.project_1 Sample.environment_1) = Ret (d :: older)
    /\ task_of Sample.history Sample.repr d task /\ state_of task state
    /\ (assoc "failed"
          [("version", JStr "1.3");
           ("release_notes", JStr "third");
           ("deployment_date", JStr "2023-12-31 16:00:00 PDT");
           ("failed", JBool true);
           ("last_successful_version", JStr "1.1");
           ("last_successful_date", JStr "2024-07-01 05:30:00 PDT")]
        = Some (JBool true) <-> state = JStr "Failed")
    /\ (state <> JStr "Failed" ->
        assoc "failed"
          [("version", JStr "1.3");
           ("release_notes", JStr "third");
           ("deployment_date", JStr "2023-12-31 16:00:00 PDT");
           ("failed", JBool true);
           ("last_successful_version", JStr "1.1");
           ("last_successful_date", JStr "2024-07-01 05:30:00 PDT")]
        = None).
Proof.
  apply (process_deployment_failed_flag Sample.history Sample.repr la 1
           Sample.project_1 Sample.environment_1 Sample.environment_1).
  vm_compute. reflexivity.
Defined.

(** C6, witness: a pair with deployments whose release is not found (404)
    gets no report. *)
Lemma process_deployment_absent_release_or_task_witness :
  fst (process_deployment Sample.pages_30_30_17 Sample.repr la 3 (JStr "P") (JStr "E"))
  = Ret None.
Proof.
  apply (process_deployment_absent_release_or_task Sample.pages_30_30_17 Sample.repr la 3
           (JStr "P") (JStr "E") (Sample.deployment "1" Sample.new_year)
           (repeat (Sample.deployment "1" Sample.new_year) 76)).
  - vm_compute. reflexivity.
  - left. exists JNull. split; [| reflexivity].
    exists (JStr "Releases-1"). split; reflexivity.
Defined.

(** C10, witness: in the sample history the deployment whose task has no
    state is passed over by the scan. *)
Lemma task_without_state_is_unknown_witness :
  last_successful_loop Sample.history Sample.repr la [d2; d1] []
  = (fst (last_successful_loop Sample.history Sample.repr la [d1] []),
     (task_request Sample.repr d2
      ++ snd (last_successful_loop Sample.history Sample.repr la [d1] []))%list).
Proof.
  apply (proj2 (proj2 (task_without_state_is_unknown Sample.history Sample.repr la))
           d2 (JObj [("Id", JStr "ServerTasks-2")]) [d1] []).
  - apply history_task. reflexivity.
  - right. exists [("Id", JStr "ServerTasks-2")]. split; reflexivity.
Defined.

End SampleWitnesses.

(** ** Display dates *)

Lemma strptime_new_year :
  strptime Sample.new_year = Ok (1704067200000000, 0).
Proof. vm_compute. reflexivity. Qed.

Lemma append_assoc (a b c : string) : (a ++ (b ++ c) = (a ++ b) ++ c)%string.
Proof. induction a as [| x a IH]; simpl; [reflexivity | now rewrite IH]. Qed.

(** Every date [convert_to_pdt] returns carries the same literal label,
    whatever offset the zone had at that instant. *)
Lemma convert_to_pdt_label la_utcoffset utc_time date :
  convert_to_pdt la_utcoffset utc_time = Ok date ->
  exists wall, date = (wall ++ " PDT")%string.
Proof.
  unfold convert_to_pdt. destruct utc_time as [| | | s | |]; try discriminate.
  destruct (strptime s) as [[wall offset] |]; [| discriminate].
  cbn [Strptime.res_bind].
  destruct (Civil.in_datetime_range (wall - offset)); [| discriminate].
  destruct (Civil.in_datetime_range _); [| discriminate].
  cbn [negb]. intros [= <-]. unfold strftime.
  destruct (Civil.civil_from_days _) as [[y m] d].
  eexists. rewrite !append_assoc. reflexivity.
Qed.

(** C9, on the code: for 2024-01-01T00:00:00.000000+00:00, an instant at
    which America/Los_Angeles is at UTC-8 (standard time), [convert_to_pdt]
    returns the UTC-8 wall-clock time 2023-12-31 16:00:00 labelled [PDT], the
    designation of daylight time, and not the designation [PST] of that
    date. *)
Theorem convert_to_pdt_new_year la_utcoffset :
  la_utcoffset 1704067200 = -28800 ->
  convert_to_pdt la_utcoffset (JStr "2024-01-01T00:00:00.000000+00:00")
  = Ok "2023-12-31 16:00:00 PDT"
  /\ convert_to_pdt la_utcoffset (JStr "2024-01-01T00:00:00.000000+00:00")
     <> Ok "2023-12-31 16:00:00 PST".
Proof.
  intros Hoffset.
  assert (H : convert_to_pdt la_utcoffset (JStr "2024-01-01T00:00:00.000000+00:00")
              = Ok "2023-12-31 16:00:00 PDT").
  { unfold convert_to_pdt.
    change "2024-01-01T00:00:00.000000+00:00" with Sample.new_year.
    rewrite strptime_new_year. cbn [Strptime.res_bind].
    change (1704067200000000 - 0) with 1704067200000000.
    change (1704067200000000 / 1000000) with 1704067200.
    rewrite Hoffset. vm_compute. reflexivity. }
  split; [exact H |]. rewrite H. discriminate.
Qed.

(** C9, witness: with the rule of the time zone database for 2007 and
    later. *)
Lemma convert_to_pdt_new_year_witness :
  convert_to_pdt Civil.los_angeles_since_2007 (JStr "2024-01-01T00:00:00.000000+00:00")
  = Ok "2023-12-31 16:00:00 PDT"
  /\ convert_to_pdt Civil.los_angeles_since_2007 (JStr "2024-01-01T00:00:00.000000+00:00")
     <> Ok "2023-12-31 16:00:00 PST".
Proof.
  apply (convert_to_pdt_new_year Civil.los_angeles_since_2007).
  vm_compute. reflexivity.
Defined.

(** ** Aggregator: completion order *)

Lemma remove_nth_permutation {A} (l : list A) : forall k x,
  nth_error l k = Some x -> Permutation (x :: remove_nth k l) l.
Proof.
  induction l as [| a l IH]; intros [| k] x H; cbn in *; try discriminate.
  - injection H as ->. reflexivity.
  - rewrite perm_swap. constructor. now apply IH.
Qed.

(** [as_completed] yields every pending future exactly once. *)
Lemma as_completed_permutation {A} n : forall choices (l : list A),
  List.length l = n -> Permutation (as_completed n choices l) l.
Proof.
  induction n as [| n IH]; intros choices l Hlen.
  - destruct l; [constructor | discriminate].
  - cbn [as_completed].
    set (k := match choices with [] => O | c :: _ => Nat.modulo c (List.length l) end).
    assert (Hk : (k < List.length l)%nat).
    { subst k. destruct choices as [| c ?]; [lia |].
      apply Nat.mod_upper_bound. lia. }
    destruct (nth_error l k) as [x |] eqn:Hx.
    + pose proof (remove_nth_permutation l k x Hx) as Hperm.
      rewrite <- Hperm at 2. constructor. apply IH.
      apply Permutation_length in Hperm. cbn in Hperm. lia.
    + apply nth_error_None in Hx. lia.
Qed.

(** ** Aggregator: grouping *)

Lemma key_eq_sym a b : key_eq a b = key_eq b a.
Proof.
  destruct a as [| [] | x | x | |], b as [| [] | y | y | |]; cbn [key_eq Bool.eqb];
    auto using Z.eqb_sym, String.eqb_sym.
Qed.

Lemma key_eq_trans a b c : key_eq a b = true -> key_eq b c = true -> key_eq a c = true.
Proof.
  destruct a as [| [] | x | x | |], b as [| [] | y | y | |], c as [| [] | z | z | |];
    cbn [key_eq Bool.eqb]; try discriminate; auto; intros H1 H2;
    rewrite ?Z.eqb_eq, ?String.eqb_eq in *; try congruence; lia.
Qed.

Lemma key_eq_class a b c : key_eq a b = true -> key_eq a c = key_eq b c.
Proof.
  intros Hab. destruct (key_eq b c) eqn:Hbc.
  - eapply key_eq_trans; eassumption.
  - destruct (key_eq a c) eqn:Hac; [| reflexivity].
    rewrite <- Hbc. symmetry. rewrite key_eq_sym in Hab.
    eapply key_eq_trans; eassumption.
Qed.

Lemma group_lookup_append t g project k :
  group_lookup (group_append t g project) k
  = (group_lookup t k ++ (if key_eq k g then [project] else []))%list.
Proof.
  induction t as [| [k' ps] t IH]; cbn [group_append group_lookup].
  - cbn [app]. reflexivity.
  - destruct (key_eq g k') eqn:Hg; cbn [group_lookup].
    + rewrite (key_eq_sym k g), (key_eq_class g k' k Hg), (key_eq_sym k' k).
      destruct (key_eq k k'); [reflexivity | now rewrite app_nil_r].
    + destruct (key_eq k k') eqn:Hk; [| exact IH].
      rewrite (key_eq_class k k' g Hk), (key_eq_sym k' g), Hg. now rewrite app_nil_r.
Qed.

Lemma projects_by_group_lookup projects : forall t0 t,
  projects_by_group projects t0 = Ok t ->
  forall k, group_lookup t k = (group_lookup t0 k ++ members projects k)%list.
Proof.
  induction projects as [| project rest IH]; intros t0 t H k.
  - cbn in H. injection H as <-. cbn. now rewrite app_nil_r.
  - cbn [projects_by_group] in H. unfold members. cbn [filter]. unfold in_group at 1.
    destruct (subscript project "ProjectGroupId") as [g |]; [| discriminate].
    destruct (hashable g); [| discriminate].
    rewrite (IH _ _ H k), group_lookup_append, <- app_assoc.
    destruct (key_eq k g); reflexivity.
Qed.

Section GroupingProperties.

Variable server : string -> http_outcome.
Variable py_repr : json -> string.
Variable sched : nat -> nat -> list nat.
Variable resolve : json -> json -> M (option (json * dict)).

Lemma process_project_inv gi pi project environments report :
  fst (process_project server py_repr sched resolve gi pi project environments) = Ret report ->
  project_report project report.
Proof.
  unfold process_project. intros H.
  apply fst_bind_inv in H as (name & Hname & H). apply fst_lift_inv in Hname.
  apply fst_bind_inv in H as (id & Hid & H). apply fst_lift_inv in Hid.
  apply fst_bind_inv in H as (details & _ & H).
  apply fst_bind_inv in H as (git_url & _ & H).
  apply fst_bind_inv in H as (env_data & _ & H).
  cbn in H. injection H as <-.
  exists id, name, git_url. eexists. auto.
Qed.

Lemma process_projects_inv environments gi members : forall pi reports,
  fst (process_projects server py_repr sched resolve gi pi members environments) = Ret reports ->
  Forall2 project_report members reports.
Proof.
  induction members as [| project rest IH]; intros pi reports H.
  - cbn in H. injection H as <-. constructor.
  - cbn [process_projects] in H.
    apply fst_bind_inv in H as (report & Hreport & H).
    apply fst_bind_inv in H as (others & Hothers & H).
    cbn in H. injection H as <-.
    constructor; [eapply process_project_inv | eapply IH]; eassumption.
Qed.

Lemma process_groups_inv projects table environments :
  (forall k, group_lookup table k = members projects k) ->
  forall groups gi reports,
    fst (process_groups server py_repr sched resolve gi groups table environments) = Ret reports ->
    Forall2 (group_report projects) groups reports.
Proof.
  intros Htable groups. induction groups as [| group rest IH]; intros gi reports H.
  - cbn in H. injection H as <-. constructor.
  - cbn [process_groups] in H.
    apply fst_bind_inv in H as (report & Hreport & H).
    apply fst_bind_inv in H as (others & Hothers & H).
    cbn in H. injection H as <-.
    constructor; [| eapply IH; eassumption].
    unfold process_group in Hreport.
    apply fst_bind_inv in Hreport as (name & Hname & Hreport). apply fst_lift_inv in Hname.
    apply fst_bind_inv in Hreport as (id & Hid & Hreport). apply fst_lift_inv in Hid.
    apply fst_bind_inv in Hreport as (found & Hfound & Hreport). apply fst_lift_inv in Hfound.
    apply fst_bind_inv in Hreport as (project_reports & Hprojects & Hreport).
    cbn in Hreport. injection Hreport as <-.
    destruct (hashable id); [| discriminate]. injection Hfound as <-.
    rewrite Htable in Hprojects. apply process_projects_inv in Hprojects.
    exists id, name, project_reports. auto.
Qed.

Lemma aggregator_grouping report :
  fst (fetch_all_deployment_data_with server py_repr sched resolve) = Ret report ->
  exists projects groups,
    listed (fetch_all_projects server) projects
    /\ listed (fetch_all_project_groups server) groups
    /\ Forall2 (group_report projects) groups report.
Proof.
  unfold fetch_all_deployment_data_with. intros H.
  apply fst_bind_inv in H as (projects_doc & Hprojects & H).
  apply fst_bind_inv in H as (groups_doc & Hgroups & H).
  apply fst_bind_inv in H as (environments & _ & H).
  apply fst_bind_inv in H as (projects & Hlist & H). apply fst_lift_inv in Hlist.
  apply fst_bind_inv in H as (table & Htable & H). apply fst_lift_inv in Htable.
  apply fst_bind_inv in H as (groups & Hglist & H). apply fst_lift_inv in Hglist.
  exists projects, groups. split; [| split].
  - exists projects_doc. auto.
  - exists groups_doc. auto.
  - eapply process_groups_inv; [| eassumption].
    intros k. now rewrite (projects_by_group_lookup _ _ _ Htable k).
Qed.

End GroupingProperties.

(** C8: the final report holds one GroupReport per fetched project group, in
    the order the groups were listed; each holds a ProjectReport for exactly
    the projects whose [ProjectGroupId] equals the group's [Id], in the order
    of the project list.  A project whose group identifier matches no listed
    group is a member of none of them, so no report is made for it. *)
Theorem fetch_all_deployment_data_grouping server py_repr la_utcoffset sched fuel report :
  fst (fetch_all_deployment_data server py_repr la_utcoffset sched fuel) = Ret report ->
  exists projects groups,
    listed (fetch_all_projects server) projects
    /\ listed (fetch_all_project_groups server) groups
    /\ Forall2 (group_report projects) groups report
    /\ (forall project,
         (forall group id,
             In group groups -> subscript group "Id" = Ok id ->
             in_group id project = false) ->
         forall group id,
           In group groups -> subscript group "Id" = Ok id ->
           ~ In project (members projects id)).
Proof.
  intros H. apply aggregator_grouping in H as (projects & groups & Hp & Hg & Hall).
  exists projects, groups. repeat split; try assumption.
  intros project Horphan group id Hin Hid Hmember.
  apply filter_In in Hmember as [_ Hmember].
  rewrite (Horphan group id Hin Hid) in Hmember. discriminate.
Qed.

(** C8, witness: the report of the sample space. *)
Lemma fetch_all_deployment_data_grouping_witness :
  exists projects groups,
    listed (fetch_all_projects Sample.space) projects
    /\ listed (fetch_all_project_groups Sample.space) groups
    /\ Forall2 (group_report projects) groups Sample.space_report
    /\ (forall project,
         (forall group id,
             In group groups -> subscript group "Id" = Ok id ->
             in_group id project = false) ->
         forall group id,
           In group groups -> subscript group "Id" = Ok id ->
           ~ In project (members projects id)).
Proof.
  apply (fetch_all_deployment_data_grouping Sample.space Sample.repr
           Civil.los_angeles_since_2007 Sample.in_order 3 Sample.space_report).
  vm_compute. reflexivity.
Defined.

(** ** Aggregator: failure containment *)

(** Run the first computation of a sequence whose outcome [H] gives. *)
Ltac run H := rewrite fst_bind; rewrite H; cbv beta iota.

Lemma mapM_fst_ext {A B} (f g : A -> M B) l :
  (forall a, fst (f a) = fst (g a)) -> fst (mapM f l) = fst (mapM g l).
Proof.
  intros H. induction l as [| a l IH]; [reflexivity |].
  cbn [mapM]. rewrite !fst_bind, H. destruct (fst (g a)); try reflexivity.
  rewrite !fst_bind, IH. reflexivity.
Qed.

Lemma remove_nth_map {A B} (f : A -> B) l : forall n,
  remove_nth n (map f l) = map f (remove_nth n l).
Proof.
  induction l as [| a l IH]; intros [| n]; cbn; try reflexivity. now rewrite IH.
Qed.

Lemma as_completed_map {A B} (f : A -> B) n : forall choices l,
  as_completed n choices (map f l) = map f (as_completed n choices l).
Proof.
  induction n as [| n IH]; intros choices l; [reflexivity |].
  cbn [as_completed]. rewrite length_map, nth_error_map.
  destruct (nth_error l _); [| reflexivity].
  cbn [option_map map]. now rewrite remove_nth_map, IH.
Qed.

Section ContainmentProperties.

Variable server : string -> http_outcome.
Variable py_repr : json -> string.
Variable sched : nat -> nat -> list nat.
Variables resolve resolve' : json -> json -> M (option (json * dict)).
Variable target : json -> bool.
Variable e0 : json.

(** The resolver reports under the environment identifier it was given. *)
Hypothesis resolve_own_id :
  forall p e id data, fst (resolve p e) = Ret (Some (id, data)) -> id = e.

(** It never raises: its failures arrive as [None]. *)
Hypothesis resolve_no_raise : forall p e x, fst (resolve p e) <> Raise x.

(** The failing run: the target pairs give no report, the other pairs are
    resolved as before. *)
Hypothesis resolve'_failing :
  forall p e, target p = true -> key_eq e e0 = true -> fst (resolve' p e) = Ret None.
Hypothesis resolve'_others :
  forall p e, target p && key_eq e e0 = false -> fst (resolve' p e) = fst (resolve p e).

Local Abbreviation remove := (env_remove e0).
Local Abbreviation submit := (fun (r : json -> json -> M (option (json * dict))) p =>
  fun env => env_id <- lift (subscript env "Id") ;;
             result <- submitted (r p env_id) ;;
             ret (env, result)).

Lemma env_set_remove_other t k data :
  key_eq k e0 = false -> env_set (remove t) k data = remove (env_set t k data).
Proof.
  intros Hk. induction t as [| [k' data'] t IH]; cbn [env_set env_remove filter fst].
  - rewrite Hk. reflexivity.
  - destruct (key_eq k k') eqn:Hkk'.
    + cbn [filter fst]. rewrite <- (key_eq_class k k' e0 Hkk'), Hk. cbn [negb env_set].
      rewrite Hkk'. reflexivity.
    + cbn [filter fst]. destruct (key_eq k' e0); cbn [negb].
      * exact IH.
      * cbn [env_set]. rewrite Hkk'. f_equal. exact IH.
Qed.

Lemma env_set_remove_same t k data :
  key_eq k e0 = true -> remove (env_set t k data) = remove t.
Proof.
  intros Hk. induction t as [| [k' data'] t IH]; cbn [env_set env_remove filter fst].
  - rewrite Hk. reflexivity.
  - destruct (key_eq k k') eqn:Hkk'; cbn [filter fst].
    + rewrite <- (key_eq_class k k' e0 Hkk'), Hk. reflexivity.
    + destruct (key_eq k' e0); cbn [negb]; [exact IH | f_equal; exact IH].
Qed.

(** The fan-in of the failing run stores what the run without failure
    stores, except under [e0]. *)
Lemma collect_failing completed : forall t table,
  collect_env_data completed t = Ok table ->
  collect_env_data (map (failing e0) completed) (remove t) = Ok (remove table).
Proof.
  induction completed as [| [env [[[id data] |] | x]] rest IH]; intros t table H;
    cbn [collect_env_data map failing] in *.
  - injection H as <-. reflexivity.
  - destruct (subscript env "Name") as [name |] eqn:Hname; [| discriminate].
    destruct (key_eq id e0) eqn:Hid; cbn [collect_env_data].
    + destruct (hashable id); [| now apply IH].
      apply IH in H. now rewrite env_set_remove_same in H.
    + destruct (hashable id); [| now apply IH].
      rewrite env_set_remove_other by assumption. now apply IH.
  - now apply IH.
  - destruct (subscript env "Name"); [now apply IH | discriminate].
Qed.

Lemma fst_submitted {A} (m : M A) :
  fst (submitted m) = match fst m with
                      | Ret a => Ret (Ok a)
                      | Raise e => Ret (Err e)
                      | Diverge => Diverge
                      end.
Proof. destruct m as [[a | e |] t]; reflexivity. Qed.

Lemma submit_failing p environments futures :
  target p = true ->
  fst (mapM (submit resolve p) environments) = Ret futures ->
  fst (mapM (submit resolve' p) environments) = Ret (map (failing e0) futures).
Proof.
  intros Hp. revert futures.
  induction environments as [| env rest IH]; intros futures H; cbn [mapM] in *.
  - cbn in H. injection H as <-. reflexivity.
  - apply fst_bind_inv in H as ([env' result] & Hfirst & H).
    apply fst_bind_inv in H as (others & Hothers & H).
    cbn in H. injection H as <-.
    apply fst_bind_inv in Hfirst as (id & Hid & Hfirst).
    apply fst_bind_inv in Hfirst as (result' & Hresult & Hfirst).
    cbn in Hfirst. injection Hfirst as <- <-.
    rewrite fst_submitted in Hresult.
    pose proof (resolve_no_raise p id) as Hnr.
    destruct (fst (resolve p id)) as [r | x |] eqn:Hr;
      [injection Hresult as <- | now elim (Hnr x) | discriminate].
    rewrite fst_bind. run Hid. rewrite fst_bind, fst_submitted.
    destruct (key_eq id e0) eqn:Hkey.
    + rewrite (resolve'_failing p id Hp Hkey). cbv beta iota. cbn [ret fst].
      run (IH _ Hothers). cbn [ret fst map failing].
      destruct r as [[id' data] |]; [| reflexivity].
      rewrite (resolve_own_id _ _ _ _ Hr), Hkey. reflexivity.
    + rewrite resolve'_others, Hr by (rewrite Hkey; apply andb_false_r).
      cbv beta iota. cbn [ret fst]. run (IH _ Hothers).
      cbn [ret fst map failing].
      destruct r as [[id' data] |]; [| reflexivity].
      rewrite (resolve_own_id _ _ _ _ Hr), Hkey. reflexivity.
Qed.

Lemma submit_others p environments :
  target p = false ->
  fst (mapM (submit resolve' p) environments) = fst (mapM (submit resolve p) environments).
Proof.
  intros Hp. apply mapM_fst_ext. intros env.
  rewrite !fst_bind. destruct (fst (lift (subscript env "Id"))) as [id | |]; try reflexivity.
  rewrite !fst_bind, !fst_submitted, resolve'_others by (rewrite Hp; reflexivity).
  reflexivity.
Qed.

Lemma project_environments_failing gi pi p environments table :
  fst (project_environments sched resolve gi pi p environments) = Ret table ->
  fst (project_environments sched resolve' gi pi p environments)
  = Ret (if target p then remove table else table).
Proof.
  unfold project_environments. intros H.
  apply fst_bind_inv in H as (envs & Henvs & H).
  run Henvs.
  destruct (target p) eqn:Hp.
  - apply fst_bind_inv in H as (futures & Hfutures & H). apply fst_lift_inv in H.
    run (submit_failing p envs futures Hp Hfutures).
    rewrite length_map, as_completed_map, fst_lift.
    pose proof (collect_failing _ [] table H) as H'.
    match goal with
    | |- match ?c with _ => _ end = _ =>
      replace c with (Ok (remove table)) by (symmetry; exact H')
    end.
    reflexivity.
  - rewrite fst_bind, submit_others by assumption.
    rewrite fst_bind in H. destruct (fst (mapM _ envs)); try discriminate. exact H.
Qed.

Lemma process_project_failing environments gi pi project a :
  fst (process_project server py_repr sched resolve gi pi project environments) = Ret a ->
  exists b,
    fst (process_project server py_repr sched resolve' gi pi project environments) = Ret b
    /\ project_contained sched resolve target e0 environments gi pi a b.
Proof.
  unfold process_project. intros H.
  apply fst_bind_inv in H as (name & Hname & H).
  apply fst_bind_inv in H as (id & Hid & H).
  apply fst_bind_inv in H as (details & Hdetails & H).
  apply fst_bind_inv in H as (git_url & Hgit & H).
  apply fst_bind_inv in H as (table & Htable & H).
  cbn in H. injection H as <-.
  run Hname. run Hid. run Hdetails. run Hgit.
  run (project_environments_failing _ _ _ _ _ Htable).
  eexists. split; [reflexivity |].
  exists id, name, git_url, table. auto.
Qed.

Lemma process_projects_failing environments gi members : forall pi reports,
  fst (process_projects server py_repr sched resolve gi pi members environments) = Ret reports ->
  exists reports',
    fst (process_projects server py_repr sched resolve' gi pi members environments)
    = Ret reports'
    /\ Forall2_from (project_contained sched resolve target e0 environments gi)
                    pi reports reports'.
Proof.
  induction members as [| project rest IH]; intros pi reports H; cbn [process_projects] in *.
  - cbn in H. injection H as <-. exists []. split; [reflexivity | constructor].
  - apply fst_bind_inv in H as (a & Ha & H).
    apply fst_bind_inv in H as (others & Hothers & H).
    cbn in H. injection H as <-.
    apply process_project_failing in Ha as (b & Hb & Hab).
    apply IH in Hothers as (others' & Hothers' & Hrel).
    exists (b :: others'). run Hb. run Hothers'.
    split; [reflexivity | now constructor].
Qed.

Lemma process_groups_failing table environments groups : forall gi reports,
  fst (process_groups server py_repr sched resolve gi groups table environments) = Ret reports ->
  exists reports',
    fst (process_groups server py_repr sched resolve' gi groups table environments)
    = Ret reports'
    /\ Forall2_from (group_contained sched resolve target e0 environments) gi reports reports'.
Proof.
  induction groups as [| group rest IH]; intros gi reports H; cbn [process_groups] in *.
  - cbn in H. injection H as <-. exists []. split; [reflexivity | constructor].
  - apply fst_bind_inv in H as (a & Ha & H).
    apply fst_bind_inv in H as (others & Hothers & H).
    cbn in H. injection H as <-.
    apply IH in Hothers as (others' & Hothers' & Hrel).
    unfold process_group in Ha |- *.
    apply fst_bind_inv in Ha as (name & Hname & Ha).
    apply fst_bind_inv in Ha as (id & Hid & Ha).
    apply fst_bind_inv in Ha as (found & Hfound & Ha).
    apply fst_bind_inv in Ha as (projects & Hprojects & Ha).
    cbn in Ha. injection Ha as <-.
    apply process_projects_failing in Hprojects as (projects' & Hprojects' & Hprel).
    eexists. rewrite fst_bind. run Hname. run Hid. run Hfound. run Hprojects'.
    cbn [ret fst]. run Hothers'.
    split; [reflexivity |].
    constructor; [| exact Hrel].
    exists id, name, projects, projects'. auto.
Qed.

Lemma aggregator_containment report :
  fst (fetch_all_deployment_data_with server py_repr sched resolve) = Ret report ->
  exists environments report',
    fst (fetch_all_environments server) = Ret environments
    /\ fst (fetch_all_deployment_data_with server py_repr sched resolve') = Ret report'
    /\ report_contained sched resolve target e0 environments report report'.
Proof.
  unfold fetch_all_deployment_data_with. intros H.
  apply fst_bind_inv in H as (projects_doc & Hprojects & H).
  apply fst_bind_inv in H as (groups_doc & Hgroups & H).
  apply fst_bind_inv in H as (environments & Henvs & H).
  apply fst_bind_inv in H as (projects & Hlist & H).
  apply fst_bind_inv in H as (table & Htable & H).
  apply fst_bind_inv in H as (groups & Hglist & H).
  apply process_groups_failing in H as (report' & Hrun & Hrel).
  exists environments, report'. split; [assumption | split; [| exact Hrel]].
  run Hprojects. run Hgroups. run Henvs. run Hlist. run Htable. run Hglist.
  exact Hrun.
Qed.

End ContainmentProperties.

Lemma process_deployment_own_id server py_repr la_utcoffset fuel p e id data :
  fst (process_deployment server py_repr la_utcoffset fuel p e) = Ret (Some (id, data)) ->
  id = e.
Proof.
  intros H. apply resolver_report_inv, body_report_inv in H.
  destruct H as (d & older & release & version & task & state & date & H).
  tauto.
Qed.

Lemma process_deployment_no_raise server py_repr la_utcoffset fuel p e x :
  fst (process_deployment server py_repr la_utcoffset fuel p e) <> Raise x.
Proof.
  unfold process_deployment. rewrite fst_try_except.
  destruct (fst (process_deployment_body _ _ _ _ _ _)); discriminate.
Qed.

(** C7: a failure of one pair stays with that pair.  (i) An exception raised
    while a pair is resolved is caught in [process_deployment], which returns
    [None] for the pair.  (ii) Take a run of the aggregator that returns a
    report, with a resolver that, as [process_deployment] does, never raises
    and reports under the identifier it was given, and the run in which the pairs of the target projects with
    environment [e0] fail (they give no report) while every other pair
    resolves as before: it returns a report too, with the same groups and
    projects in the same order, where each project holds the environment
    reports it held before, in the same order, except the one of [e0] in a
    target project. *)
Theorem failure_containment :
  (forall server py_repr la_utcoffset fuel project_id environment_id e requests,
      process_deployment_body server py_repr la_utcoffset fuel project_id environment_id
      = (Raise e, requests) ->
      process_deployment server py_repr la_utcoffset fuel project_id environment_id
      = (Ret None, requests))
  /\ (forall server py_repr sched resolve resolve' target e0 report,
      (forall p e id data, fst (resolve p e) = Ret (Some (id, data)) -> id = e) ->
      (forall p e x, fst (resolve p e) <> Raise x) ->
      (forall p e, target p = true -> key_eq e e0 = true -> fst (resolve' p e) = Ret None) ->
      (forall p e, target p && key_eq e e0 = false -> fst (resolve' p e) = fst (resolve p e)) ->
      fst (fetch_all_deployment_data_with server py_repr sched resolve) = Ret report ->
      exists environments report',
        fst (fetch_all_environments server) = Ret environments
        /\ fst (fetch_all_deployment_data_with server py_repr sched resolve') = Ret report'
        /\ report_contained sched resolve target e0 environments report report').
Proof.
  split.
  - intros server py_repr la_utcoffset fuel p env e requests H.
    unfold process_deployment. rewrite H. cbn. now rewrite app_nil_r.
  - intros server py_repr sched resolve resolve' target e0 report Hid Hnr Hfail Hothers H.
    eapply aggregator_containment; eassumption.
Qed.

Lemma unreachable_resolver fuel p e :
  fst (process_deployment Sample.unreachable Sample.repr Civil.los_angeles_since_2007
         (S fuel) p e) = Ret None.
Proof. reflexivity. Qed.

(** C7, witness: the sample space when the requests for environment 2 fail
    in every project. *)
Lemma failure_containment_witness :
  exists environments report',
    fst (fetch_all_environments Sample.space) = Ret environments
    /\ fst (fetch_all_deployment_data_with Sample.space Sample.repr Sample.in_order
              Sample.resolver_failing_2) = Ret report'
    /\ report_contained Sample.in_order Sample.resolver Sample.everywhere
         Sample.environment_2 environments Sample.space_report report'.
Proof.
  apply (proj2 failure_containment Sample.space Sample.repr Sample.in_order
           Sample.resolver Sample.resolver_failing_2 Sample.everywhere
           Sample.environment_2 Sample.space_report).
  - intros p e id data. apply process_deployment_own_id.
  - intros p e x. apply process_deployment_no_raise.
  - intros p e _ Hkey. unfold Sample.resolver_failing_2. rewrite Hkey.
    apply unreachable_resolver.
  - intros p e Hkey. unfold Sample.resolver_failing_2.
    cbn [Sample.everywhere andb] in Hkey. rewrite Hkey. reflexivity.
  - vm_compute. reflexivity.
Defined.

(** The report of the sample space in that run: environment 2 is missing,
    everything else is as in [Sample.space_report]. *)
Lemma space_report_failing_2 :
  fst (fetch_all_deployment_data_with Sample.space Sample.repr Sample.in_order
         Sample.resolver_failing_2)
  = Ret [JObj [("id", JStr "ProjectGroups-1"); ("name", JStr "group 1");
               ("projects",
                JArr [JObj [("id", JStr "Projects-1"); ("name", JStr "project 1");
                            ("git_url", JStr "https://git.example.com/p1");
                            ("environments",
                             JArr [JObj [("version", JStr "1.3");
                                         ("release_notes", JStr "third");
                                         ("deployment_date", JStr "2023-12-31 16:00:00 PDT");
                                         ("failed", JBool true);
                                         ("last_successful_version", JStr "1.1");
                                         ("last_successful_date", JStr "2024-07-01 05:30:00 PDT");
                                         ("name", JStr "environment 1")]])];
                      JObj [("id", JStr "Projects-3"); ("name", JStr "project 3");
                            ("git_url", JNull); ("environments", JArr [])]])];
         JObj [("id", JStr "ProjectGroups-2"); ("name", JStr "group 2");
               ("projects", JArr [])]].
Proof. vm_compute. reflexivity. Qed.

(** The environments of a project come out in the order the futures
    complete: with the last submitted future completing first, environment 2
    precedes environment 1 in the report of project 1. *)
Lemma space_report_reversed :
  exists group_2 project_3 entry_1 entry_2,
    fst (fetch_all_deployment_data Sample.space Sample.repr Civil.los_angeles_since_2007
           Sample.reversed 3)
    = Ret [JObj [("id", JStr "ProjectGroups-1"); ("name", JStr "group 1");
                 ("projects",
                  JArr [JObj [("id", JStr "Projects-1"); ("name", JStr "project 1");
                              ("git_url", JStr "https://git.example.com/p1");
                              ("environments", JArr [JObj entry_2; JObj entry_1])];
                        project_3])];
           group_2]
    /\ assoc "name" entry_1 = Some (JStr "environment 1")
    /\ assoc "name" entry_2 = Some (JStr "environment 2").
Proof. do 4 eexists. split; [vm_compute; reflexivity | split; reflexivity]. Qed.

(** * Further properties *)

(** ** Paginator and resolver: pages and records that cannot be read *)

Section UnreadableData.

Variable server : string -> http_outcome.
Variable py_repr : json -> string.
Variable la_utcoffset : Z -> Z.
Variables project_id environment_id : json.

Local Abbreviation response := (page_response server py_repr project_id environment_id).
Local Abbreviation request := (page_request py_repr project_id environment_id).
Local Abbreviation loop := (fun fuel => pagination_loop server py_repr fuel project_id environment_id).
Local Abbreviation scan := (last_successful_loop server py_repr la_utcoffset).

Lemma pagination_loop_broken pages : forall k acc fuel e,
  (forall i items, nth_error pages i = Some items -> full_page (response (k + i)) items) ->
  broken_page (response (k + List.length pages)) e ->
  (List.length pages < fuel)%nat ->
  loop fuel (take * Z.of_nat k) acc
  = (Raise e, map request (seq k (S (List.length pages)))).
Proof.
  induction pages as [| page pages IH]; intros k acc fuel e Hfull Hbroken Hfuel;
    destruct fuel as [| fuel]; try lia;
    rewrite (pagination_loop_turn server py_repr project_id environment_id).
  - cbn [List.length] in Hbroken. rewrite Nat.add_0_r in Hbroken.
    destruct Hbroken as [-> | [(result & -> & Ht & Hi)
                              | (result & items & -> & Ht & Hi & Hv & Hlen)]].
    + reflexivity.
    + cbn zeta. rewrite Ht, Hi. reflexivity.
    + cbn zeta. rewrite Ht, Hi. cbn [negb bind lift ret]. rewrite Hv, Hlen. reflexivity.
  - destruct (Hfull O page eq_refl) as (result & Hr & Ht & Hi & Hlen).
    rewrite Nat.add_0_r in Hr. rewrite Hr. cbn zeta. rewrite Ht, Hi.
    destruct page as [| d page]; [cbn in Hlen; unfold take in Hlen; lia |].
    apply Z.ltb_ge in Hlen.
    cbn [negb bind lift ret truthy py_len py_iter fst snd app]. rewrite Hlen.
    rewrite (IH (S k) (acc ++ d :: page)%list fuel e).
    + reflexivity.
    + intros i items Hi'. replace (S k + i)%nat with (k + S i)%nat by lia.
      apply Hfull. exact Hi'.
    + replace (S k + List.length pages)%nat
        with (k + List.length ((d :: page) :: pages))%nat by (cbn; lia).
      exact Hbroken.
    + cbn in Hfuel. lia.
Qed.

(** X1: the paginator does not return what it accumulated when a page cannot
    be read.  After [n] full pages, a page whose request raises, whose
    document has no [Items], or whose [Items] has no length makes
    [fetch_deployments_with_pagination] raise that exception after [n + 1]
    requests; [process_deployment] then returns [None] for the pair, with
    the same requests. *)
Theorem fetch_deployments_with_pagination_broken pages e fuel :
  (forall i items, nth_error pages i = Some items -> full_page (response i) items) ->
  broken_page (response (List.length pages)) e ->
  (List.length pages < fuel)%nat ->
  fetch_deployments_with_pagination server py_repr fuel project_id environment_id
  = (Raise e, map request (seq O (S (List.length pages))))
  /\ process_deployment server py_repr la_utcoffset fuel project_id environment_id
     = (Ret None, map request (seq O (S (List.length pages)))).
Proof.
  intros Hfull Hbroken Hfuel.
  assert (Hfetch : fetch_deployments_with_pagination server py_repr fuel
                     project_id environment_id
                   = (Raise e, map request (seq O (S (List.length pages))))).
  { unfold fetch_deployments_with_pagination. change 0 with (take * Z.of_nat O).
    apply pagination_loop_broken; assumption. }
  split; [exact Hfetch |].
  unfold process_deployment, process_deployment_body. rewrite Hfetch.
  cbn [bind try_except ret]. now rewrite app_nil_r.
Qed.

End UnreadableData.

(** X1, witness: a full page, then a transport failure. *)
Lemma fetch_deployments_with_pagination_broken_witness :
  fetch_deployments_with_pagination Sample.pages_30_then_down Sample.repr 4
    (JStr "P") (JStr "E")
  = (Raise ConnectionError, [Sample.page_url "P" "E" "0"; Sample.page_url "P" "E" "30"])
  /\ process_deployment Sample.pages_30_then_down Sample.repr
       Civil.los_angeles_since_2007 4 (JStr "P") (JStr "E")
     = (Ret None, [Sample.page_url "P" "E" "0"; Sample.page_url "P" "E" "30"]).
Proof.
  apply (fetch_deployments_with_pagination_broken Sample.pages_30_then_down Sample.repr
           Civil.los_angeles_since_2007 (JStr "P") (JStr "E")
           [repeat (Sample.deployment "1" Sample.new_year) 30] ConnectionError 4).
  - intros [| i] items; cbn [nth_error]; try (destruct i; discriminate).
    intros E.
    replace items with (repeat (Sample.deployment "1" Sample.new_year) 30) by congruence.
    apply (sample_page_full _ _ 30); (reflexivity || lia).
  - left. reflexivity.
  - cbn. lia.
Defined.

(** ** Resolver: the other paths of [process_deployment] *)

Section ResolverPaths.

Variable server : string -> http_outcome.
Variable py_repr : json -> string.
Variable la_utcoffset : Z -> Z.

Local Abbreviation scan := (last_successful_loop server py_repr la_utcoffset).
Local Abbreviation fetch := (fetch_deployments_with_pagination server py_repr).
Local Abbreviation resolver := (process_deployment server py_repr la_utcoffset).

Lemma eq_str_false v s : v <> JStr s -> eq_str v s = false.
Proof.
  intros Hne. destruct (eq_str v s) eqn:E; [| reflexivity].
  apply eq_str_true in E. contradiction.
Qed.

(** X2: when the task of the latest deployment has any state other than
    Failed, the report holds exactly the version, the release notes and the
    date of the latest deployment, and no older record is asked for: the
    requests are those of the paginator, then the release and the task of
    the latest record. *)
Theorem process_deployment_not_failed
    fuel project_id environment_id d older requests release version task state date :
  fetch fuel project_id environment_id = (Ret (d :: older), requests) ->
  release_of server py_repr d release -> subscript release "Version" = Ok version ->
  task_of server py_repr d task -> state_of task state -> state <> JStr "Failed" ->
  date_of la_utcoffset d date ->
  resolver fuel project_id environment_id
  = (Ret (Some (environment_id,
                [("version", version);
                 ("release_notes", release_notes_of release);
                 ("deployment_date", JStr date)])),
     (requests ++ release_request py_repr d ++ task_request py_repr d)%list).
Proof.
  intros Hfetch Hrelease Hversion Htask Hstate Hne Hdate.
  pose proof (body_latest _ _ _ _ _ _ _ _ _ _ _ _ _ _
                Hfetch Hrelease Hversion Htask Hstate Hdate) as Hbody.
  cbn zeta in Hbody. unfold completed_report in Hbody.
  rewrite (eq_str_false _ _ Hne) in Hbody.
  unfold process_deployment. rewrite Hbody.
  cbn [ret fst snd try_except base_report]. now rewrite app_nil_r.
Qed.

(** A successful record whose release cannot be read makes the scan raise. *)
Lemma scan_hit_unreadable d rest output release e :
  successful server py_repr d ->
  release_of server py_repr d release -> subscript release "Version" = Err e ->
  scan (d :: rest) output
  = (Raise e, (task_request py_repr d ++ release_request py_repr d)%list).
Proof.
  intros (task & (task_id & Hid & Htask) & Htrue & Hstate)
         (release_id & Hrid & Hrelease) Hversion.
  cbn [last_successful_loop]. unfold task_request, release_request. rewrite Hid, Hrid.
  rewrite (bind_lift_ok _ _ _ eq_refl).
  apply request_ret in Htask, Hrelease.
  unfold task_endpoint in Htask. unfold release_endpoint in Hrelease.
  rewrite Htask. cbn [bind]. rewrite Htrue. cbn [negb].
  rewrite (bind_lift_ok _ _ _ Hstate). cbn [eq_str]. rewrite String.eqb_refl. cbn [negb].
  rewrite (bind_lift_ok _ _ _ eq_refl), Hrelease. cbn [bind].
  rewrite (bind_lift_err _ _ _ Hversion). reflexivity.
Qed.

Lemma scan_first_unreadable before d after output release e :
  Forall (not_successful server py_repr) before ->
  successful server py_repr d ->
  release_of server py_repr d release -> subscript release "Version" = Err e ->
  scan (before ++ d :: after) output
  = (Raise e,
     (flat_map (task_request py_repr) before
      ++ task_request py_repr d ++ release_request py_repr d)%list).
Proof.
  intros Hbefore Hd Hrelease Hversion. induction Hbefore as [| d0 before Hd0 _ IH].
  - eapply scan_hit_unreadable; eassumption.
  - cbn [app flat_map]. rewrite scan_skip, IH by assumption.
    cbn [fst snd]. now rewrite <- app_assoc.
Qed.

(** X3: the release of the last successful deployment is read without a
    check.  When the latest deployment failed and the first successful
    record of the remaining history has a release that is fetched as [None]
    (or without a [Version]), the exception is caught by the [except] clause
    and the pair gets no report at all, although its latest deployment
    resolved. *)
Theorem process_deployment_last_successful_unreadable
    fuel project_id environment_id d older requests release version date
    before r after release_r e :
  fetch fuel project_id environment_id = (Ret (d :: older), requests) ->
  release_of server py_repr d release -> subscript release "Version" = Ok version ->
  (exists task, task_of server py_repr d task /\ state_of task (JStr "Failed")) ->
  date_of la_utcoffset d date ->
  older = (before ++ r :: after)%list ->
  Forall (not_successful server py_repr) before ->
  successful server py_repr r ->
  release_of server py_repr r release_r -> subscript release_r "Version" = Err e ->
  resolver fuel project_id environment_id
  = (Ret None,
     (requests ++ release_request py_repr d ++ task_request py_repr d
      ++ flat_map (task_request py_repr) before
      ++ task_request py_repr r ++ release_request py_repr r)%list).
Proof.
  intros Hfetch Hrelease Hversion (task & Htask & Hstate) Hdate -> Hbefore Hr Hrel_r Hver_r.
  pose proof (body_latest _ _ _ _ _ _ _ _ _ _ _ _ _ _
                Hfetch Hrelease Hversion Htask Hstate Hdate) as Hbody.
  cbn zeta in Hbody. unfold completed_report in Hbody. cbn [eq_str] in Hbody.
  rewrite String.eqb_refl in Hbody.
  rewrite (scan_first_unreadable before r after _ release_r e) in Hbody by assumption.
  unfold process_deployment. rewrite Hbody.
  cbn [fst snd try_except ret]. now rewrite app_nil_r.
Qed.

(** What the scan adds to a report, with the date it converted. *)
Lemma scan_result_dated older : forall output output',
  fst (scan older output) = Ret output' ->
  output' = output
  \/ exists version created date,
       convert_to_pdt la_utcoffset created = Ok date
       /\ output' = dict_set (dict_set output "last_successful_version" version)
                             "last_successful_date" (JStr date).
Proof.
  induction older as [| d older IH]; intros output output' H.
  - left. cbn in H. congruence.
  - cbn [last_successful_loop] in H.
    apply fst_bind_inv in H as (task_id & _ & H).
    apply fst_bind_inv in H as (task & _ & H).
    destruct (truthy task); cbn [negb] in H; [| now apply IH].
    apply fst_bind_inv in H as (state & _ & H).
    destruct (eq_str state "Success"); cbn [negb] in H; [| now apply IH].
    apply fst_bind_inv in H as (release_id & _ & H).
    apply fst_bind_inv in H as (release & _ & H).
    apply fst_bind_inv in H as (version & _ & H).
    apply fst_bind_inv in H as (created & _ & H).
    apply fst_bind_inv in H as (date & Hdate & H). apply fst_lift_inv in Hdate.
    right. exists version, created, date. cbn in H. split; congruence.
Qed.

(** X4: the shape of a report.  Whatever [process_deployment] returns is
    filed under the environment identifier it was given, and holds the
    three fields of the latest deployment, followed either by nothing, or by
    [failed], or by [failed] and both last-successful fields: the
    last-successful fields never appear without [failed], nor one without
    the other. *)
Theorem process_deployment_report_shape fuel project_id environment_id env_id output :
  fst (resolver fuel project_id environment_id) = Ret (Some (env_id, output)) ->
  env_id = environment_id
  /\ exists version notes date,
       output = base_report version notes date
       \/ output = (base_report version notes date ++ [("failed", JBool true)])%list
       \/ exists version_s date_s,
            output = (base_report version notes date
                      ++ [("failed", JBool true);
                          ("last_successful_version", version_s);
                          ("last_successful_date", JStr date_s)])%list.
Proof.
  intros H. apply resolver_report_inv, body_report_inv in H.
  destruct H as (d & older & release & version & task & state & date
                 & _ & _ & _ & _ & _ & _ & Henv & Hrest).
  split; [exact Henv |].
  exists version, (release_notes_of release), date.
  unfold completed_report in Hrest. destruct (eq_str state "Failed").
  - apply scan_result in Hrest as [-> | (version_s & date_s & ->)].
    + right; left. reflexivity.
    + right; right. exists version_s, date_s. reflexivity.
  - left. cbn in Hrest. congruence.
Qed.

(** X5: every date of a report carries the literal label [PDT]: the
    deployment date always, the last-successful date when there is one,
    whatever offset the zone had at those instants. *)
Theorem process_deployment_dates_labelled fuel project_id environment_id env_id output :
  fst (resolver fuel project_id environment_id) = Ret (Some (env_id, output)) ->
  (exists wall, assoc "deployment_date" output = Some (JStr (wall ++ " PDT")))
  /\ (forall v, assoc "last_successful_date" output = Some v ->
                exists wall, v = JStr (wall ++ " PDT")).
Proof.
  intros H. apply resolver_report_inv, body_report_inv in H.
  destruct H as (d & older & release & version & task & state & date
                 & _ & _ & _ & _ & _ & (created & _ & Hdate) & _ & Hrest).
  apply convert_to_pdt_label in Hdate as (wall & ->).
  unfold completed_report in Hrest. destruct (eq_str state "Failed").
  - apply scan_result_dated in Hrest
      as [-> | (version_s & created_s & date_s & Hdate_s & ->)].
    + split; [exists wall; reflexivity | discriminate].
    + apply convert_to_pdt_label in Hdate_s as (wall_s & ->).
      split; [exists wall; reflexivity |].
      intros v [= <-]. exists wall_s. reflexivity.
  - cbn in Hrest. injection Hrest as <-.
    split; [exists wall; reflexivity | discriminate].
Qed.

End ResolverPaths.

Section ResolverPathsWitnesses.

Local Abbreviation la := Civil.los_angeles_since_2007.
Local Abbreviation d3 := (Sample.deployment "3" Sample.new_year).
Local Abbreviation d2 := (Sample.deployment "2" Sample.in_july).
Local Abbreviation d1 := (Sample.deployment "1" Sample.in_july).

Lemma sample_release srv n created release :
  srv (api_url ("releases/Releases-" ++ n)) = Sample.ok release ->
  release_of srv Sample.repr (Sample.deployment n created) release.
Proof.
  intros H. exists (JStr ("Releases-" ++ n)). split; [reflexivity |].
  unfold make_api_request, release_endpoint. cbn [py_str append] in *.
  rewrite H. reflexivity.
Qed.

Lemma sample_task srv n created task :
  srv (api_url ("tasks/ServerTasks-" ++ n)) = Sample.ok task ->
  task_of srv Sample.repr (Sample.deployment n created) task.
Proof.
  intros H. exists (JStr ("ServerTasks-" ++ n)). split; [reflexivity |].
  unfold make_api_request, task_endpoint. cbn [py_str append] in *.
  rewrite H. reflexivity.
Qed.

(** X2, witness: project 1 in environment 2 of the sample space, whose only
    deployment succeeded. *)
Lemma process_deployment_not_failed_witness :
  process_deployment Sample.space Sample.repr la 1 Sample.project_1 Sample.environment_2
  = (Ret (Some (Sample.environment_2,
                [("version", JStr "1.1");
                 ("release_notes", JNull);
                 ("deployment_date", JStr "2024-07-01 05:30:00 PDT")])),
     [Sample.page_url "Projects-1" "Environments-2" "0";
      api_url "releases/Releases-1"; api_url "tasks/ServerTasks-1"]).
Proof.
  refine (process_deployment_not_failed Sample.space Sample.repr la 1
            Sample.project_1 Sample.environment_2 d1 []
            [Sample.page_url "Projects-1" "Environments-2" "0"]
            (JObj [("Version", JStr "1.1")]) (JStr "1.1")
            (JObj [("State", JStr "Success")]) (JStr "Success")
            "2024-07-01 05:30:00 PDT" _ _ _ _ _ _ _).
  - vm_compute. reflexivity.
  - apply sample_release. vm_compute. reflexivity.
  - reflexivity.
  - apply sample_task. vm_compute. reflexivity.
  - split; reflexivity.
  - discriminate.
  - apply history_date. vm_compute. reflexivity.
Defined.

(** X3, witness: the sample history once the release of the successful
    deployment is gone: no report, after the same six requests. *)
Lemma process_deployment_last_successful_unreadable_witness :
  process_deployment Sample.history_without_release_1 Sample.repr la 1
    Sample.project_1 Sample.environment_1
  = (Ret None,
     [Sample.page_url "Projects-1" "Environments-1" "0";
      api_url "releases/Releases-3"; api_url "tasks/ServerTasks-3";
      api_url "tasks/ServerTasks-2"; api_url "tasks/ServerTasks-1";
      api_url "releases/Releases-1"]).
Proof.
  refine (process_deployment_last_successful_unreadable
            Sample.history_without_release_1 Sample.repr la 1
            Sample.project_1 Sample.environment_1 d3 [d2; d1]
            [Sample.page_url "Projects-1" "Environments-1" "0"]
            (JObj [("Version", JStr "1.3"); ("ReleaseNotes", JStr "third")]) (JStr "1.3")
            "2023-12-31 16:00:00 PDT" [d2] d1 [] JNull TypeError
            _ _ _ _ _ eq_refl _ _ _ _).
  - vm_compute. reflexivity.
  - apply sample_release. vm_compute. reflexivity.
  - reflexivity.
  - exists (JObj [("State", JStr "Failed")]). split.
    + apply sample_task. vm_compute. reflexivity.
    + split; reflexivity.
  - apply history_date. vm_compute. reflexivity.
  - constructor; [| constructor].
    exists (JObj [("Id", JStr "ServerTasks-2")]). split.
    + apply sample_task. vm_compute. reflexivity.
    + right. exists (JStr "Unknown"). repeat split.
  - exists (JObj [("State", JStr "Success")]). split.
    + apply sample_task. vm_compute. reflexivity.
    + split; reflexivity.
  - exists (JStr "Releases-1"). split; [reflexivity | vm_compute; reflexivity].
  - reflexivity.
Defined.

(** X4, witness: the report of the sample history has the third shape. *)
Lemma process_deployment_report_shape_witness :
  Sample.environment_1 = Sample.environment_1
  /\ exists version notes date,
       Sample.history_report = base_report version notes date
       \/ Sample.history_report
          = (base_report version notes date ++ [("failed", JBool true)])%list
       \/ exists version_s date_s,
            Sample.history_report
            = (base_report version notes date
               ++ [("failed", JBool true);
                   ("last_successful_version", version_s);
                   ("last_successful_date", JStr date_s)])%list.
Proof.
  apply (process_deployment_report_shape Sample.history Sample.repr la 1
           Sample.project_1 Sample.environment_1
           Sample.environment_1 Sample.history_report).
  vm_compute. reflexivity.
Defined.

(** X5, witness: both dates of the report of the sample history. *)
Lemma process_deployment_dates_labelled_witness :
  (exists wall,
      assoc "deployment_date" Sample.history_report = Some (JStr (wall ++ " PDT")))
  /\ (forall v, assoc "last_successful_date" Sample.history_report = Some v ->
                exists wall, v = JStr (wall ++ " PDT")).
Proof.
  apply (process_deployment_dates_labelled Sample.history Sample.repr la 1
           Sample.project_1 Sample.environment_1
           Sample.environment_1 Sample.history_report).
  vm_compute. reflexivity.
Defined.

End ResolverPathsWitnesses.

(** ** Aggregator: listings *)

Section Listings.

Variable server : string -> http_outcome.
Variable py_repr : json -> string.
Variable la_utcoffset : Z -> Z.
Variable sched : nat -> nat -> list nat.
Variable fuel : nat.

Local Abbreviation request := (make_api_request server).
Local Abbreviation aggregate :=
  (fetch_all_deployment_data server py_repr la_utcoffset sched fuel).

Lemma fetch_all_projects_requests :
  snd (fetch_all_projects server) = [api_url "projects/all"].
Proof.
  unfold fetch_all_projects. rewrite make_api_request_eq.
  destruct (fst (request "projects/all")) as [doc | e |]; try reflexivity.
  rewrite bind_pair. cbn [snd]. destruct (truthy doc); [| reflexivity].
  destruct (py_len doc); reflexivity.
Qed.

Lemma fetch_all_project_groups_requests :
  snd (fetch_all_project_groups server) = [api_url "projectgroups/all"].
Proof.
  unfold fetch_all_project_groups. rewrite make_api_request_eq.
  destruct (fst (request "projectgroups/all")) as [doc | e |]; try reflexivity.
  rewrite bind_pair. cbn [snd]. destruct (truthy doc); [| reflexivity].
  destruct (py_len doc); reflexivity.
Qed.

Lemma fetch_all_environments_requests :
  snd (fetch_all_environments server) = [api_url "environments/all"].
Proof.
  unfold fetch_all_environments. rewrite make_api_request_eq.
  destruct (fst (request "environments/all")) as [doc | e |]; try reflexivity.
  rewrite bind_pair. cbn [snd]. destruct (truthy doc); [| reflexivity].
  destruct (py_len doc); reflexivity.
Qed.

Lemma fetch_all_project_groups_falsy doc :
  fst (request "projectgroups/all") = Ret doc -> truthy doc = false ->
  fst (fetch_all_project_groups server) = Ret (JArr []).
Proof.
  intros Hdoc Hfalse. unfold fetch_all_project_groups.
  run Hdoc. rewrite Hfalse. reflexivity.
Qed.

Lemma projects_by_group_total projects :
  Forall groupable projects ->
  forall t, exists t', projects_by_group projects t = Ok t'.
Proof.
  induction 1 as [| project rest (g & Hg & Hh) _ IH]; intros t; cbn [projects_by_group].
  - eauto.
  - rewrite Hg, Hh. apply IH.
Qed.

Lemma projects_by_group_stray before : forall project after e t,
  Forall groupable before ->
  subscript project "ProjectGroupId" = Err e
  \/ (exists g, subscript project "ProjectGroupId" = Ok g
                /\ hashable g = false /\ e = TypeError) ->
  projects_by_group (before ++ project :: after) t = Err e.
Proof.
  induction before as [| p before IH]; intros project after e t Hbefore Hstray;
    cbn [app projects_by_group].
  - destruct Hstray as [-> | (g & -> & -> & ->)]; reflexivity.
  - inversion Hbefore as [| ? ? (g & Hg & Hh) Hrest]; subst.
    rewrite Hg, Hh. now apply IH.
Qed.

Lemma M_eq {A} (m : M A) o t : fst m = o -> snd m = t -> m = (o, t).
Proof. destruct m. cbn. congruence. Qed.

(** X6: when the listing of the project groups is answered with [None] (a
    status other than 200) or with an empty document, the run ends with the
    empty report and without an error, whatever projects were listed: it
    makes its three listing requests and asks for no project and no
    deployment. *)
Theorem fetch_all_deployment_data_without_groups projects groups_document environments :
  listed (fetch_all_projects server) projects ->
  Forall groupable projects ->
  fst (request "projectgroups/all") = Ret groups_document ->
  truthy groups_document = false ->
  fst (fetch_all_environments server) = Ret environments ->
  aggregate
  = (Ret [], [api_url "projects/all"; api_url "projectgroups/all";
              api_url "environments/all"]).
Proof.
  intros (document & Hprojects & Hlist) Hgroupable Hgroups Hfalse Henvs.
  destruct (projects_by_group_total projects Hgroupable []) as (table & Htable).
  pose proof (fetch_all_project_groups_falsy _ Hgroups Hfalse) as Hnone.
  unfold fetch_all_deployment_data, fetch_all_deployment_data_with.
  rewrite (M_eq _ _ _ Hprojects fetch_all_projects_requests), bind_pair.
  rewrite (M_eq _ _ _ Hnone fetch_all_project_groups_requests), bind_pair.
  rewrite (M_eq _ _ _ Henvs fetch_all_environments_requests), bind_pair.
  rewrite (bind_lift_ok _ _ _ Hlist), (bind_lift_ok _ _ _ Htable).
  reflexivity.
Qed.

(** X7: a listing request that raises ends the run.  An exception of the
    API client in any of the three listing calls (a transport failure, a
    200 answer that is not JSON) is raised by [fetch_all_deployment_data]
    itself: no report is returned. *)
Theorem fetch_all_deployment_data_listing_raises e :
  (fst (request "projects/all") = Raise e -> fst aggregate = Raise e)
  /\ (forall projects,
      fst (fetch_all_projects server) = Ret projects ->
      fst (request "projectgroups/all") = Raise e -> fst aggregate = Raise e)
  /\ (forall projects groups,
      fst (fetch_all_projects server) = Ret projects ->
      fst (fetch_all_project_groups server) = Ret groups ->
      fst (request "environments/all") = Raise e -> fst aggregate = Raise e).
Proof.
  unfold fetch_all_deployment_data, fetch_all_deployment_data_with.
  split; [| split].
  - intros H. rewrite fst_bind. unfold fetch_all_projects. now run H.
  - intros projects Hprojects H. run Hprojects.
    rewrite fst_bind. unfold fetch_all_project_groups. now run H.
  - intros projects groups Hprojects Hgroups H. run Hprojects. run Hgroups.
    rewrite fst_bind. unfold fetch_all_environments. now run H.
Qed.

(** X8: one project that cannot be filed ends the run.  When a listed
    project has no [ProjectGroupId] ([KeyError]; [TypeError] when the
    project is not an object or the identifier is a list or an object), the
    grouping loop raises and [fetch_all_deployment_data] raises with it,
    before any group is processed, whether or not any group would have held
    the project. *)
Theorem fetch_all_deployment_data_stray_project before project after e groups environments :
  listed (fetch_all_projects server) (before ++ project :: after) ->
  Forall groupable before ->
  subscript project "ProjectGroupId" = Err e
  \/ (exists g, subscript project "ProjectGroupId" = Ok g
                /\ hashable g = false /\ e = TypeError) ->
  fst (fetch_all_project_groups server) = Ret groups ->
  fst (fetch_all_environments server) = Ret environments ->
  aggregate
  = (Raise e, [api_url "projects/all"; api_url "projectgroups/all";
               api_url "environments/all"]).
Proof.
  intros (document & Hprojects & Hlist) Hbefore Hstray Hgroups Henvs.
  unfold fetch_all_deployment_data, fetch_all_deployment_data_with.
  rewrite (M_eq _ _ _ Hprojects fetch_all_projects_requests), bind_pair.
  rewrite (M_eq _ _ _ Hgroups fetch_all_project_groups_requests), bind_pair.
  rewrite (M_eq _ _ _ Henvs fetch_all_environments_requests), bind_pair.
  rewrite (bind_lift_ok _ _ _ Hlist).
  rewrite (bind_lift_err _ _ _ (projects_by_group_stray _ _ _ _ [] Hbefore Hstray)).
  reflexivity.
Qed.

End Listings.

Lemma sample_groupable n group : groupable (Sample.project n group).
Proof. exists (JStr ("ProjectGroups-" ++ group)). split; reflexivity. Qed.

(** X6, witness: the sample projects when the group listing answers 404. *)
Lemma fetch_all_deployment_data_without_groups_witness :
  fetch_all_deployment_data Sample.space_without_groups Sample.repr
    Civil.los_angeles_since_2007 Sample.in_order 3
  = (Ret [], [api_url "projects/all"; api_url "projectgroups/all";
              api_url "environments/all"]).
Proof.
  apply (fetch_all_deployment_data_without_groups Sample.space_without_groups Sample.repr
           Civil.los_angeles_since_2007 Sample.in_order 3
           [Sample.project "1" "1"; Sample.project "2" "9"; Sample.project "3" "1"]
           JNull (JArr [Sample.environment "1"; Sample.environment "2"])).
  - eexists. split; reflexivity.
  - repeat (apply Forall_cons; [apply sample_groupable |]). apply Forall_nil.
  - reflexivity.
  - reflexivity.
  - reflexivity.
Defined.

(** X7, witness: no listing request reaches the service. *)
Lemma fetch_all_deployment_data_listing_raises_witness :
  fst (fetch_all_deployment_data Sample.unreachable Sample.repr
         Civil.los_angeles_since_2007 Sample.in_order 3) = Raise ConnectionError.
Proof.
  apply (proj1 (fetch_all_deployment_data_listing_raises Sample.unreachable Sample.repr
                  Civil.los_angeles_since_2007 Sample.in_order 3 ConnectionError)).
  reflexivity.
Defined.

(** X8, witness: a project without [ProjectGroupId] after a well-formed one. *)
Lemma fetch_all_deployment_data_stray_project_witness :
  fetch_all_deployment_data Sample.space_with_stray Sample.repr
    Civil.los_angeles_since_2007 Sample.in_order 3
  = (Raise KeyError, [api_url "projects/all"; api_url "projectgroups/all";
                      api_url "environments/all"]).
Proof.
  apply (fetch_all_deployment_data_stray_project Sample.space_with_stray Sample.repr
           Civil.los_angeles_since_2007 Sample.in_order 3
           [Sample.project "1" "1"] Sample.stray_project [] KeyError
           (JArr [Sample.group "1"]) (JArr [Sample.environment "1"])).
  - eexists. split; reflexivity.
  - apply Forall_cons; [apply sample_groupable | apply Forall_nil].
  - left. reflexivity.
  - reflexivity.
  - reflexivity.
Defined.

(** ** Aggregator: the fan-in loop *)

Lemma key_eq_refl k : hashable k = true -> key_eq k k = true.
Proof.
  destruct k as [| [] | n | s | |]; cbn; try discriminate; intros _;
    auto using Z.eqb_refl, String.eqb_refl.
Qed.

Lemma assoc_dict_set_same d k v : assoc k (dict_set d k v) = Some v.
Proof.
  induction d as [| [k' v'] d IH]; cbn [dict_set assoc].
  - now rewrite String.eqb_refl.
  - destruct (String.eqb_spec k k') as [<- |]; cbn [assoc].
    + now rewrite String.eqb_refl.
    + destruct (String.eqb_spec k k'); [contradiction | exact IH].
Qed.

Lemma collect_env_data_passes completed : forall env_data table,
  collect_env_data completed env_data = Ok table -> Forall passes completed.
Proof.
  induction completed as [| [env [[[id data] |] | x]] rest IH]; intros t table H;
    cbn [collect_env_data] in H.
  - constructor.
  - destruct (subscript env "Name") as [name |] eqn:Hname; [| discriminate].
    constructor; [right; exists name; exact Hname |].
    destruct (hashable id); eapply IH; eassumption.
  - constructor; [now left | eapply IH; eassumption].
  - destruct (subscript env "Name") as [name |] eqn:Hname; [| discriminate].
    constructor; [right; exists name; exact Hname | eapply IH; eassumption].
Qed.

(** X9: when the fan-in loop gets through.  [collect_env_data] returns a
    table exactly when every completed future that holds a report or an
    exception belongs to an environment with a [Name]; a single such future
    of an environment without a [Name] makes the loop raise (from the [try]
    block, and again from the log line of the handler). *)
Theorem collect_env_data_returns completed env_data :
  (exists table, collect_env_data completed env_data = Ok table)
  <-> Forall passes completed.
Proof.
  split.
  - intros (table & H). eapply collect_env_data_passes; eassumption.
  - intros Hall. revert env_data.
    induction Hall as [| [env result] rest Hpass _ IH]; intros t; cbn [collect_env_data].
    + eauto.
    + destruct Hpass as [Hnone | (name & Hname)]; cbn [fst snd] in *.
      * subst result. apply IH.
      * rewrite Hname. destruct result as [[[id data] |] | x]; try apply IH.
        destruct (hashable id); apply IH.
Qed.

Lemma env_set_in t k data k' data' :
  hashable k = true ->
  In (k', data') (env_set t k data) ->
  In (k', data') t \/ (data' = data /\ key_eq k k' = true).
Proof.
  intros Hk. induction t as [| [k0 d0] t IH]; cbn [env_set].
  - intros [[= <- <-] | []]. right. split; [reflexivity | now apply key_eq_refl].
  - destruct (key_eq k k0) eqn:E.
    + intros [[= <- <-] | Hin]; [right; auto | left; now right].
    + intros [Heq | Hin]; [left; now left |].
      destruct (IH Hin) as [Hin' | Hnew]; [left; now right | now right].
Qed.

Lemma env_set_keeps_apart t k0 k data :
  Forall (fun b => key_eq k0 (fst b) = false) t ->
  key_eq k0 k = false ->
  Forall (fun b => key_eq k0 (fst b) = false) (env_set t k data).
Proof.
  intros Ht Hk. induction Ht as [| [k' d'] t Hhead Htail IH]; cbn [env_set].
  - constructor; [exact Hk | constructor].
  - destruct (key_eq k k'); constructor; assumption.
Qed.

Lemma env_set_distinct t k data :
  distinct_keys t -> distinct_keys (env_set t k data).
Proof.
  unfold distinct_keys. intros Ht.
  induction Ht as [| [k' d'] t Hhead Htail IH]; cbn [env_set].
  - constructor; constructor.
  - destruct (key_eq k k') eqn:E.
    + constructor; [exact Hhead | exact Htail].
    + constructor; [| exact IH].
      apply env_set_keeps_apart; [exact Hhead |].
      cbn [fst]. now rewrite key_eq_sym.
Qed.

Lemma collect_env_data_entries completed : forall t table,
  collect_env_data completed t = Ok table ->
  (distinct_keys t -> distinct_keys table)
  /\ forall k data,
       In (k, data) table ->
       In (k, data) t
       \/ exists env id data0 name,
            In (env, Ok (Some (id, data0))) completed
            /\ subscript env "Name" = Ok name
            /\ key_eq id k = true
            /\ data = dict_set data0 "name" name.
Proof.
  induction completed as [| [env [[[id data0] |] | x]] rest IH]; intros t table H;
    cbn [collect_env_data] in H.
  - injection H as <-. split; [auto |]. intros k data Hin. now left.
  - destruct (subscript env "Name") as [name |] eqn:Hname; [| discriminate].
    destruct (hashable id) eqn:Hh.
    + destruct (IH _ _ H) as [Hd Hentries]. split.
      * intros Ht. apply Hd. now apply env_set_distinct.
      * intros k data Hin. destruct (Hentries k data Hin) as [Hset | Hrest].
        -- apply env_set_in in Hset as [Hold | [-> Hkey]]; [now left | | exact Hh].
           right. exists env, id, data0, name. cbn [In]. auto.
        -- right. destruct Hrest as (env' & id' & data' & name' & Hin' & Hrest).
           exists env', id', data', name'. cbn [In]. auto.
    + destruct (IH _ _ H) as [Hd Hentries]. split; [exact Hd |].
      intros k data Hin. destruct (Hentries k data Hin) as [Hold | Hrest]; [now left |].
      right. destruct Hrest as (env' & id' & data' & name' & Hin' & Hrest).
      exists env', id', data', name'. cbn [In]. auto.
  - destruct (IH _ _ H) as [Hd Hentries]. split; [exact Hd |].
    intros k data Hin. destruct (Hentries k data Hin) as [Hold | Hrest]; [now left |].
    right. destruct Hrest as (env' & id' & data' & name' & Hin' & Hrest).
    exists env', id', data', name'. cbn [In]. auto.
  - destruct (subscript env "Name"); [| discriminate].
    destruct (IH _ _ H) as [Hd Hentries]. split; [exact Hd |].
    intros k data Hin. destruct (Hentries k data Hin) as [Hold | Hrest]; [now left |].
    right. destruct Hrest as (env' & id' & data' & name' & Hin' & Hrest).
    exists env', id', data', name'. cbn [In]. auto.
Qed.

(** X10: what the environment table of a project holds.  Starting from the
    empty table, every entry [collect_env_data] stores is the report of one
    of the completed futures, under a key equal to the identifier it was
    resolved for, with the name of that future's environment set under
    ["name"]; and no two entries have equal keys, so a project never shows
    two reports for one environment identifier, even when the environment
    is listed twice. *)
Theorem collect_env_data_table completed table :
  collect_env_data completed [] = Ok table ->
  distinct_keys table
  /\ forall k data,
       In (k, data) table ->
       exists env id data0 name,
         In (env, Ok (Some (id, data0))) completed
         /\ subscript env "Name" = Ok name
         /\ key_eq id k = true
         /\ data = dict_set data0 "name" name
         /\ assoc "name" data = Some name.
Proof.
  intros H. destruct (collect_env_data_entries _ _ _ H) as [Hd Hentries].
  split; [apply Hd; constructor |].
  intros k data Hin. destruct (Hentries k data Hin) as [[] | Hfrom].
  destruct Hfrom as (env & id & data0 & name & Hin' & Hname & Hkey & ->).
  exists env, id, data0, name. repeat split; try assumption.
  apply assoc_dict_set_same.
Qed.

(** X10, witness: two reports for environment 1 leave one entry, the later
    one. *)
Lemma collect_env_data_table_witness :
  distinct_keys [(Sample.environment_1,
                  [("version", JStr "1.4"); ("name", JStr "environment 1")])]
  /\ forall k data,
       In (k, data) [(Sample.environment_1,
                      [("version", JStr "1.4"); ("name", JStr "environment 1")])] ->
       exists env id data0 name,
         In (env, Ok (Some (id, data0))) Sample.completed_futures
         /\ subscript env "Name" = Ok name
         /\ key_eq id k = true
         /\ data = dict_set data0 "name" name
         /\ assoc "name" data = Some name.
Proof.
  apply (collect_env_data_table Sample.completed_futures).
  reflexivity.
Defined.

(** ** Aggregator: completion order *)

Lemma apart_sym f g : apart f g -> apart g f.
Proof.
  intros H id data id' data' Hg Hf. rewrite key_eq_sym. eapply H; eassumption.
Qed.

Lemma all_apart_permutation l l' :
  Permutation l l' -> ForallOrdPairs apart l -> ForallOrdPairs apart l'.
Proof.
  induction 1 as [| x l l' Hperm IH | x y l | l l' l'' _ IH1 _ IH2]; intros H.
  - constructor.
  - inversion H as [| ? ? Hx Hl]; subst.
    constructor; [eapply Permutation_Forall; eassumption | now apply IH].
  - inversion H as [| ? ? Hy Hxl]; subst.
    inversion Hxl as [| ? ? Hx Hl]; subst.
    inversion Hy as [| ? ? Hyx Hyl]; subst.
    constructor; [constructor; [now apply apart_sym | assumption] |].
    constructor; assumption.
  - auto.
Qed.

Lemma env_set_fresh t k data :
  Forall (fun b => key_eq k (fst b) = false) t -> env_set t k data = (t ++ [(k, data)])%list.
Proof.
  induction 1 as [| [k' d'] t Hhead _ IH]; cbn [env_set app]; [reflexivity |].
  cbn [fst] in Hhead. rewrite Hhead, IH. reflexivity.
Qed.

(** With reports for pairwise different identifiers, none of them in the
    table yet, each report is appended. *)
Lemma collect_env_data_apart completed : forall t,
  ForallOrdPairs apart completed ->
  Forall passes completed ->
  Forall (fun f => forall id data, snd f = Ok (Some (id, data)) ->
                   Forall (fun b => key_eq id (fst b) = false) t) completed ->
  collect_env_data completed t = Ok (t ++ flat_map stored completed)%list.
Proof.
  induction completed as [| [env result] rest IH]; intros t Hapart Hpass Hfresh;
    cbn [collect_env_data flat_map stored].
  - now rewrite app_nil_r.
  - inversion Hapart as [| ? ? Hhead Hrest]; subst.
    inversion Hpass as [| ? ? Hp Hps]; subst.
    inversion Hfresh as [| ? ? Hf Hfs]; subst.
    destruct result as [[[id data] |] | x]; cbn [fst snd] in *.
    + destruct Hp as [Hnone | (name & Hname)]; [discriminate |].
      cbn [fst] in Hname. rewrite Hname. destruct (hashable id); [| now apply IH].
      rewrite (env_set_fresh t id _ (Hf id data eq_refl)).
      rewrite IH; [now rewrite <- app_assoc | assumption | assumption |].
      rewrite Forall_forall in Hhead, Hfs |- *.
      intros g Hg id' data' Hresult. apply Forall_app. split.
      * eapply Hfs; eassumption.
      * constructor; [| constructor]. cbn [fst]. rewrite key_eq_sym.
        eapply (Hhead g Hg); [reflexivity | eassumption].
    + now apply IH.
    + destruct Hp as [Hnone | (name & Hname)]; [discriminate |].
      cbn [fst] in Hname. rewrite Hname. now apply IH.
Qed.

Section CompletionOrder.

Variables sched sched' : nat -> nat -> list nat.
Variable resolve : json -> json -> M (option (json * dict)).

Hypothesis resolve_own_id :
  forall p e id data, fst (resolve p e) = Ret (Some (id, data)) -> id = e.

Local Abbreviation submit := (fun p =>
  fun env => env_id <- lift (subscript env "Id") ;;
             result <- submitted (resolve p env_id) ;;
             ret (env, result)).

(** Each future reports for the identifier of its environment. *)
Lemma submitted_for p environments : forall futures,
  fst (mapM (submit p) environments) = Ret futures ->
  Forall2 (fun env f => forall id data, snd f = Ok (Some (id, data)) ->
                                        subscript env "Id" = Ok id)
          environments futures.
Proof.
  induction environments as [| env rest IH]; intros futures H; cbn [mapM] in H.
  - cbn in H. injection H as <-. constructor.
  - apply fst_bind_inv in H as ([env' result] & Hfirst & H).
    apply fst_bind_inv in H as (others & Hothers & H).
    cbn in H. injection H as <-.
    apply fst_bind_inv in Hfirst as (env_id & Hid & Hfirst). apply fst_lift_inv in Hid.
    apply fst_bind_inv in Hfirst as (result' & Hresult & Hfirst).
    cbn in Hfirst. injection Hfirst as <- <-.
    constructor; [| now apply IH].
    intros id data Hsome. cbn [snd] in Hsome. subst result'.
    rewrite fst_submitted in Hresult.
    destruct (fst (resolve p env_id)) as [r | x |] eqn:Hr; try discriminate.
    injection Hresult as ->. now rewrite (resolve_own_id _ _ _ _ Hr).
Qed.

Lemma futures_apart environments futures :
  Forall2 (fun env f => forall id data, snd f = Ok (Some (id, data)) ->
                                        subscript env "Id" = Ok id)
          environments futures ->
  ForallOrdPairs different_ids environments ->
  ForallOrdPairs apart futures.
Proof.
  induction 1 as [| env f environments futures Hf Hrest IH]; intros Hdiff.
  - constructor.
  - inversion Hdiff as [| ? ? Hhead Htail]; subst.
    constructor; [| now apply IH].
    clear IH Htail Hdiff. revert Hhead.
    induction Hrest as [| env' g environments futures Hg _ IH]; intros Hhead.
    + constructor.
    + inversion Hhead as [| ? ? Hfirst Hothers]; subst.
      constructor; [| apply IH; exact Hothers].
      intros id data id' data' Hsome Hsome'.
      exact (Hfirst id id' (Hf _ _ Hsome) (Hg _ _ Hsome')).
Qed.

(** X11: the completion order of the futures only shows in the order of the
    entries.  For a project whose environments have pairwise different
    identifiers, and a resolver that reports under the identifier it was
    given (as [process_deployment] does), any two completion orders give
    environment tables, and so lists of environment reports, that are
    permutations of each other; if one order gets through the loop, so does
    the other. *)
Theorem project_environments_any_order gi pi project_id environments envs table :
  py_iter environments = Ok envs ->
  ForallOrdPairs different_ids envs ->
  fst (project_environments sched resolve gi pi project_id environments) = Ret table ->
  exists table',
    fst (project_environments sched' resolve gi pi project_id environments) = Ret table'
    /\ Permutation table table'
    /\ Permutation (env_values table) (env_values table').
Proof.
  intros Henvs Hdiff H. unfold project_environments in H |- *.
  rewrite (bind_lift_ok _ _ _ Henvs) in H. rewrite (bind_lift_ok _ _ _ Henvs).
  apply fst_bind_inv in H as (futures & Hfutures & H). apply fst_lift_inv in H.
  run Hfutures. rewrite fst_lift.
  pose proof (futures_apart _ _ (submitted_for _ _ _ Hfutures) Hdiff) as Hapart.
  set (n := List.length futures) in *.
  assert (Hperm : forall choices, Permutation (as_completed n choices futures) futures)
    by (intros choices; now apply as_completed_permutation).
  pose proof (collect_env_data_passes _ _ _ H) as Hpass.
  assert (Hone : forall choices,
             collect_env_data (as_completed n choices futures) []
             = Ok (flat_map stored (as_completed n choices futures))).
  { intros choices.
    apply (collect_env_data_apart (as_completed n choices futures) []).
    - eapply all_apart_permutation; [symmetry; apply Hperm | exact Hapart].
    - eapply Permutation_Forall; [| exact Hpass].
      rewrite (Hperm (sched gi pi)). symmetry. apply Hperm.
    - apply Forall_forall. intros f _ id data _. constructor. }
  rewrite Hone in H. injection H as <-. rewrite Hone.
  eexists. split; [reflexivity |].
  assert (Permutation (flat_map stored (as_completed n (sched gi pi) futures))
                      (flat_map stored (as_completed n (sched' gi pi) futures))).
  { apply Permutation_flat_map. rewrite (Hperm (sched gi pi)). symmetry. apply Hperm. }
  split; [assumption | now apply Permutation_map].
Qed.

End CompletionOrder.

Lemma sample_environments_differ :
  ForallOrdPairs different_ids [Sample.environment "1"; Sample.environment "2"].
Proof.
  repeat constructor. intros a b [= <-] [= <-]. reflexivity.
Qed.

(** X11, witness: project 1 of the sample space, its two futures completing
    in submission order or the other way round. *)
Lemma project_environments_any_order_witness :
  exists table table',
    fst (project_environments Sample.in_order Sample.resolver 0 0 Sample.project_1
           (JArr [Sample.environment "1"; Sample.environment "2"])) = Ret table
    /\ fst (project_environments Sample.reversed Sample.resolver 0 0 Sample.project_1
              (JArr [Sample.environment "1"; Sample.environment "2"])) = Ret table'
    /\ Permutation table table'
    /\ Permutation (env_values table) (env_values table').
Proof.
  pose (table := [(Sample.environment_1,
                   (Sample.history_report ++ [("name", JStr "environment 1")])%list);
                  (Sample.environment_2,
                   [("version", JStr "1.1"); ("release_notes", JNull);
                    ("deployment_date", JStr "2024-07-01 05:30:00 PDT");
                    ("name", JStr "environment 2")])]).
  assert (H : fst (project_environments Sample.in_order Sample.resolver 0 0
                     Sample.project_1
                     (JArr [Sample.environment "1"; Sample.environment "2"]))
              = Ret table)
    by (vm_compute; reflexivity).
  destruct (project_environments_any_order Sample.in_order Sample.reversed Sample.resolver
              (fun p e id data => process_deployment_own_id _ _ _ _ p e id data)
              0 0 Sample.project_1
              (JArr [Sample.environment "1"; Sample.environment "2"])
              [Sample.environment "1"; Sample.environment "2"] _
              eq_refl sample_environments_differ H)
    as (table' & Hrun & Hperm & Hvalues).
  exists table, table'. repeat split; assumption.
Defined.

(** ** Aggregator: project details *)

(** X12: the details of a project.  (i) When the details are answered with
    [None] (or an empty document) the project is kept: it is reported with
    [git_url] [None] and with its environments.  (ii) When the details hold
    [PersistenceSettings] with a value that is not an object ([null], for
    one), the default [{}] of the lookup does not apply, the second [.get]
    raises [AttributeError], and it is raised out of the project loop. *)
Theorem process_project_details
    server py_repr sched resolve gi pi project environments name id details :
  subscript project "Name" = Ok name ->
  subscript project "Id" = Ok id ->
  fst (fetch_project_details server py_repr id) = Ret details ->
  (truthy details = false ->
   forall table,
     fst (project_environments sched resolve gi pi id environments) = Ret table ->
     fst (process_project server py_repr sched resolve gi pi project environments)
     = Ret (JObj [("id", id); ("name", name); ("git_url", JNull);
                  ("environments", JArr (env_values table))]))
  /\ (forall fields settings,
      details = JObj fields ->
      assoc "PersistenceSettings" fields = Some settings ->
      (forall d, settings <> JObj d) ->
      fst (process_project server py_repr sched resolve gi pi project environments)
      = Raise AttributeError).
Proof.
  intros Hname Hid Hdetails. unfold process_project. split.
  - intros Hfalse table Htable.
    rewrite (bind_lift_ok _ _ _ Hname), (bind_lift_ok _ _ _ Hid).
    run Hdetails. unfold git_url_of. rewrite Hfalse. cbn [lift].
    rewrite fst_bind. cbn [ret fst]. run Htable. reflexivity.
  - intros fields settings -> Hsettings Hnot.
    rewrite (bind_lift_ok _ _ _ Hname), (bind_lift_ok _ _ _ Hid).
    run Hdetails. unfold git_url_of.
    assert (Htrue : truthy (JObj fields) = true)
      by (destruct fields; [discriminate | reflexivity]).
    rewrite Htrue. cbn [dict_get]. rewrite Hsettings.
    destruct settings as [| | | | |d]; try reflexivity.
    elim (Hnot d). reflexivity.
Qed.

(** X12, witness: a project whose details hold [null] settings. *)
Lemma process_project_details_witness :
  fst (process_project Sample.space_with_null_settings Sample.repr Sample.in_order
         Sample.resolver 0 0 (Sample.project "1" "1") (JArr []))
  = Raise AttributeError.
Proof.
  apply (proj2 (process_project_details Sample.space_with_null_settings Sample.repr
                  Sample.in_order Sample.resolver 0 0 (Sample.project "1" "1") (JArr [])
                  (JStr "project 1") (JStr "Projects-1") (JObj [("PersistenceSettings", JNull)])
                  eq_refl eq_refl eq_refl)
           [("PersistenceSettings", JNull)] JNull eq_refl eq_refl).
  discriminate.
Defined.

(** ** Display dates: what the format requires *)

Create HintDb strptime.

Lemma consumes_one p : consumes (Strptime.one p).
Proof.
  intros [| c t] a rest; cbn; [tauto |].
  destruct (p c); cbn; [| tauto].
  intros [[= <- <-] | []]. exists [c]. reflexivity.
Qed.

Lemma consumes_pure {A} (a : A) : consumes (Strptime.pure a).
Proof. intros t b rest [[= <- <-] | []]. exists []. reflexivity. Qed.

Lemma in_seq2 {A B C} (f : A -> B -> C) p q t c rest :
  In (c, rest) (Strptime.seq2 f p q t) ->
  exists a b middle, In (a, middle) (p t) /\ In (b, rest) (q middle) /\ c = f a b.
Proof.
  unfold Strptime.seq2. intros Hin.
  apply in_flat_map in Hin as ([a middle] & Hp & Hin).
  apply in_map_iff in Hin as ([b rest'] & [= <- <-] & Hq).
  exists a, b, middle. auto.
Qed.

Lemma consumes_seq2 {A B C} (f : A -> B -> C) p q :
  consumes p -> consumes q -> consumes (Strptime.seq2 f p q).
Proof.
  intros Hp Hq t c rest Hin.
  apply in_seq2 in Hin as (a & b & middle & Hin1 & Hin2 & _).
  destruct (Hp _ _ _ Hin1) as (r1 & ->). destruct (Hq _ _ _ Hin2) as (r2 & ->).
  exists (r1 ++ r2)%list. now rewrite app_assoc.
Qed.

Lemma consumes_alt {A} (p q : Strptime.pat A) :
  consumes p -> consumes q -> consumes (Strptime.alt p q).
Proof.
  intros Hp Hq t a rest Hin. apply in_app_or in Hin as [Hin | Hin]; eauto.
Qed.

#[local] Hint Resolve consumes_one consumes_pure consumes_seq2 consumes_alt : strptime.

Lemma needs_seq2_first {A B C} c (f : A -> B -> C) p q :
  needs c p -> needs c (Strptime.seq2 f p q).
Proof.
  intros Hp t x rest Hin.
  apply in_seq2 in Hin as (a & b & middle & Hin1 & _ & _). eauto.
Qed.

Lemma needs_seq2_second {A B C} c (f : A -> B -> C) p q :
  consumes p -> needs c q -> needs c (Strptime.seq2 f p q).
Proof.
  intros Hp Hq t x rest Hin.
  apply in_seq2 in Hin as (a & b & middle & Hin1 & Hin2 & _).
  destruct (Hp _ _ _ Hin1) as (read & ->).
  apply in_or_app. right. eauto.
Qed.

Lemma needs_lit c : needs c (Strptime.lit c).
Proof.
  apply needs_seq2_first. intros [| x t] a rest; cbn; [tauto |].
  unfold Strptime.chr. destruct (Ascii.eqb_spec x c) as [-> |]; cbn; [| tauto].
  intros _. now left.
Qed.

(** A text the format matches holds a dot: the one before the fraction of
    the seconds. *)
Lemma format_needs_dot : needs "."%char Strptime.pat_format.
Proof.
  unfold Strptime.pat_format.
  do 11 (apply needs_seq2_second;
         [unfold Strptime.pat_Y, Strptime.pat_m, Strptime.pat_d, Strptime.pat_H,
            Strptime.pat_M, Strptime.pat_S, Strptime.lit, Strptime.lit_nocase,
            Strptime.two, Strptime.one_digit;
          auto 12 with strptime |]).
  apply needs_seq2_first. apply needs_lit.
Qed.

Section WholeSeconds.

Variable server : string -> http_outcome.
Variable py_repr : json -> string.
Variable la_utcoffset : Z -> Z.

Lemma convert_to_pdt_needs_dot s :
  ~ In "."%char (list_ascii_of_string s) ->
  convert_to_pdt la_utcoffset (JStr s) = Err ValueError.
Proof.
  intros Hdot. unfold convert_to_pdt, strptime.
  destruct (Strptime.pat_format (list_ascii_of_string s)) as [| [f rest] others] eqn:E;
    [reflexivity |].
  elim Hdot. apply (format_needs_dot _ f rest). rewrite E. now left.
Qed.

(** X13: the format asks for a fraction of the seconds.  (i) A timestamp
    that holds no dot, such as one written with whole seconds, is refused by
    [convert_to_pdt] with [ValueError], whatever the zone.  (ii) When the
    latest deployment of a pair carries such a [Created], the pair gets no
    report, although its release and its task were fetched. *)
Theorem convert_to_pdt_whole_seconds :
  (forall s,
      ~ In "."%char (list_ascii_of_string s) ->
      convert_to_pdt la_utcoffset (JStr s) = Err ValueError)
  /\ (forall fuel project_id environment_id d older requests release version task state s,
      fetch_deployments_with_pagination server py_repr fuel project_id environment_id
      = (Ret (d :: older), requests) ->
      release_of server py_repr d release -> subscript release "Version" = Ok version ->
      task_of server py_repr d task -> state_of task state ->
      subscript d "Created" = Ok (JStr s) ->
      ~ In "."%char (list_ascii_of_string s) ->
      process_deployment server py_repr la_utcoffset fuel project_id environment_id
      = (Ret None, (requests ++ release_request py_repr d ++ task_request py_repr d)%list)).
Proof.
  split; [exact convert_to_pdt_needs_dot |].
  intros fuel project_id environment_id d older requests release version task state s
         Hfetch (release_id & Hrid & Hrelease) Hversion (task_id & Htid & Htask)
         [Htrue Hstate] Hcreated Hdot.
  unfold process_deployment, process_deployment_body. rewrite Hfetch, bind_pair.
  cbn beta iota. unfold release_request, task_request. rewrite Hrid, Htid.
  rewrite (bind_lift_ok _ _ _ eq_refl).
  apply request_ret in Hrelease, Htask.
  unfold release_endpoint in Hrelease. unfold task_endpoint in Htask.
  rewrite Hrelease, bind_pair, (bind_lift_ok _ _ _ eq_refl), Htask, bind_pair.
  rewrite (proj1 (subscript_ok_dict _ _ _ Hversion)), Htrue. cbn [negb orb].
  rewrite (bind_lift_ok _ _ _ Hstate), (bind_lift_ok _ _ _ Hversion),
    (bind_lift_ok _ _ _ (subscript_release_notes _ _ Hversion)),
    (bind_lift_ok _ _ _ Hcreated),
    (bind_lift_err _ _ _ (convert_to_pdt_needs_dot s Hdot)).
  cbn [fst snd try_except ret app]. now rewrite !app_nil_r.
Qed.

End WholeSeconds.

(** X13, witness: a deployment created at 2024-01-01T00:00:00+00:00. *)
Lemma convert_to_pdt_whole_seconds_witness :
  convert_to_pdt Civil.los_angeles_since_2007 (JStr Sample.whole_seconds) = Err ValueError
  /\ process_deployment Sample.history_whole_seconds Sample.repr
       Civil.los_angeles_since_2007 1 Sample.project_1 Sample.environment_1
     = (Ret None, [Sample.page_url "Projects-1" "Environments-1" "0";
                   api_url "releases/Releases-3"; api_url "tasks/ServerTasks-3"]).
Proof.
  assert (Hdot : ~ In "."%char (list_ascii_of_string Sample.whole_seconds))
    by (cbn; intuition discriminate).
  split.
  - apply (proj1 (convert_to_pdt_whole_seconds Sample.history_whole_seconds Sample.repr
                    Civil.los_angeles_since_2007)).
    exact Hdot.
  - refine (proj2 (convert_to_pdt_whole_seconds Sample.history_whole_seconds Sample.repr
                     Civil.los_angeles_since_2007)
              1%nat Sample.project_1 Sample.environment_1
              (Sample.deployment "3" Sample.whole_seconds) []
              [Sample.page_url "Projects-1" "Environments-1" "0"]
              (JObj [("Version", JStr "1.3"); ("ReleaseNotes", JStr "third")]) (JStr "1.3")
              (JObj [("State", JStr "Failed")]) (JStr "Failed") Sample.whole_seconds
              _ _ _ _ _ _ Hdot).
    + vm_compute. reflexivity.
    + apply sample_release. vm_compute. reflexivity.
    + reflexivity.
    + apply sample_task. vm_compute. reflexivity.
    + split; reflexivity.
    + reflexivity.
Defined.
